(** * PrismaUtil: the SqlUtil query helper

    A shallow embedding of the two versions of the [SqlUtil] class
    ([src/sqlUtil.js], the extended one, and [src/unnamed/part_000], the
    simpler one) and the properties of its condition translation,
    pagination, date normalisation, field projection and mutating
    operations.

    Conventions of the embedding.

    - A JavaScript value is a [jsval]: [undefined], [null], booleans,
      numbers, strings, arrays, plain data objects (as [JSON.parse] builds
      them) and [Date] instants.  Functions, symbols, big integers, getters
      and proxies are outside the data model.
    - A number is a [num]: an exact integer, [NaN] or an infinity.  The
      rounding of doubles beyond 2^53, fractions and the sign of zero are
      not represented, so the closed forms of sums and products are stated
      for integers of at most 2^53 in absolute value ([exact_integer]);
      the only division of the code, under [Math.ceil], is modelled
      together with its rounding ([Math_ceil_div]).
    - An object is the list of its own enumerable properties in creation
      order, each key once.  JavaScript enumerates integer-like keys ahead
      of the others; the lists given as inputs are read as already being in
      enumeration order, a list the model returns is in creation order.
      An assignment writes the key [__proto__] like any other, where the
      language runs the setter of [Object.prototype] and adds no property:
      what is stated of the keys the code writes is stated for objects
      without an own key [__proto__].
    - What the code leaves to the language runtime and the data cannot
      decide ([Date.parse], the conversion of a string or of an object to
      a number) is a field of [Runtime].
    - A call that can raise returns an [outcome]; a call that reaches the
      store runs in [io], over an abstract store state and a log of the
      calls made to the collaborators. *)

From Stdlib Require Import ZArith List String Ascii Bool Lia.
From Stdlib Require Import DecimalString DecimalNat FinFun.
Import ListNotations.

Local Open Scope string_scope.
Local Open Scope list_scope.
Local Open Scope Z_scope.

(** ** Numbers *)

(** The numbers this code computes with: the integers, the two infinities
    and [NaN].  The arithmetic on [Fin] is the exact one on integers; the
    language's is the rounded one of binary64, and the two agree as long as
    the operands and the result are integers of at most 2^53 in absolute
    value ([exact_integer] below): the closed forms on integers are stated
    within that range. *)
Inductive num : Type :=
| Fin (z : Z)
| PInf
| NInf
| NaN.

Definition isNaN (n : num) : bool :=
  match n with NaN => true | _ => false end.

Definition is_finite (n : num) : bool :=
  match n with Fin _ => true | _ => false end.

(** [a - b] *)
Definition num_sub (a b : num) : num :=
  match a, b with
  | NaN, _ | _, NaN => NaN
  | Fin x, Fin y => Fin (x - y)
  | PInf, PInf | NInf, NInf => NaN
  | PInf, _ | _, NInf => PInf
  | NInf, _ | _, PInf => NInf
  end.

Definition inf_times (positive : bool) (x : Z) : num :=
  if x =? 0 then NaN
  else if Bool.eqb positive (0 <? x) then PInf else NInf.

(** [a * b] *)
Definition num_mul (a b : num) : num :=
  match a, b with
  | NaN, _ | _, NaN => NaN
  | Fin x, Fin y => Fin (x * y)
  | Fin x, PInf | PInf, Fin x => inf_times true x
  | Fin x, NInf | NInf, Fin x => inf_times false x
  | PInf, PInf | NInf, NInf => PInf
  | PInf, NInf | NInf, PInf => NInf
  end.

(** [a < b] on numbers; false as soon as one side is [NaN]. *)
Definition num_ltb (a b : num) : bool :=
  match a, b with
  | NaN, _ | _, NaN => false
  | Fin x, Fin y => x <? y
  | NInf, NInf | PInf, _ | _, NInf => false
  | NInf, _ | _, PInf => true
  end.

(** [Math.ceil(a / b)].  The quotient of two integers is rounded up; a zero
    divisor gives an infinity of the sign of [a], or [NaN] for [0 / 0]. *)
Definition Math_ceil_div (a b : num) : num :=
  match a, b with
  | NaN, _ | _, NaN => NaN
  | Fin x, Fin y =>
      if y =? 0 then
        if x =? 0 then NaN else if 0 <? x then PInf else NInf
      else Fin (- ((- x) / y))
  | Fin _, PInf | Fin _, NInf => Fin 0
  | PInf, Fin y => if 0 <=? y then PInf else NInf
  | NInf, Fin y => if 0 <=? y then NInf else PInf
  | _, _ => NaN
  end.

(** The largest time value of a [Date], in milliseconds. *)
Definition max_time : Z := 8640000000000000.

(** [TimeClip]: what [new Date(t)] keeps of the number [t]. *)
Definition TimeClip (t : num) : num :=
  match t with
  | Fin z => if Z.abs z <=? max_time then Fin z else NaN
  | _ => NaN
  end.

(** ** Values *)

#[local] Set Warnings "-register-all".

Inductive jsval : Type :=
| VUndefined
| VNull
| VBool (b : bool)
| VNumber (n : num)
| VString (s : string)
| VArray (elems : list jsval)
| VObject (props : list (string * jsval))
| VDate (time : num).

(** An object: its own enumerable properties, in creation order. *)
Definition obj : Type := list (string * jsval).

Definition is_nullish (v : jsval) : bool :=
  match v with VUndefined | VNull => true | _ => false end.

(** [val === null] *)
Definition is_null (v : jsval) : bool :=
  match v with VNull => true | _ => false end.

(** [Array.isArray(v)] *)
Definition isArray (v : jsval) : bool :=
  match v with VArray _ => true | _ => false end.

(** [ToBoolean]: what [if (v)], [v || d] and [!v] test. *)
Definition truthy (v : jsval) : bool :=
  match v with
  | VUndefined | VNull => false
  | VBool b => b
  | VNumber (Fin z) => negb (z =? 0)
  | VNumber NaN => false
  | VNumber _ => true
  | VString s => negb (s =? "")%string
  | VArray _ | VObject _ | VDate _ => true
  end.

(** [a || b] *)
Definition js_or (a b : jsval) : jsval := if truthy a then a else b.

(** [a ?? b] *)
Definition js_coalesce (a b : jsval) : jsval := if is_nullish a then b else a.

(** [l.includes(k)] on an array of strings. *)
Definition includes (l : list string) (k : string) : bool :=
  existsb (String.eqb k) l.

(** *** Objects as ordered property lists *)

Fixpoint obj_lookup (o : obj) (k : string) : option jsval :=
  match o with
  | [] => None
  | (k', v) :: o' => if (k' =? k)%string then Some v else obj_lookup o' k
  end.

(** [o[k]] on an object: [undefined] when [k] is not a property. *)
Definition obj_get (o : obj) (k : string) : jsval :=
  match obj_lookup o k with Some v => v | None => VUndefined end.

(** [k in o] *)
Definition obj_has (o : obj) (k : string) : bool :=
  match obj_lookup o k with Some _ => true | None => false end.

(** [o[k] = v]: an existing property keeps its place, a new one is added
    last.  This is the assignment for every key but [__proto__], the one
    key that [Object.prototype] defines with a setter: assigning it to an
    object that has no such own property sets the prototype and adds no
    property.  The properties on the keys that the code writes are stated
    for objects without an own key [__proto__]. *)
Fixpoint obj_set (o : obj) (k : string) (v : jsval) : obj :=
  match o with
  | [] => [(k, v)]
  | (k', v') :: o' =>
      if (k' =? k)%string then (k, v) :: o' else (k', v') :: obj_set o' k v
  end.

(** [delete o[k]] *)
Definition obj_delete (o : obj) (k : string) : obj :=
  filter (fun kv => negb (fst kv =? k)%string) o.

Definition keys (o : obj) : list string := map fst o.

(** The decimal numeral of an array index. *)
Definition index_key (i : nat) : string :=
  NilEmpty.string_of_uint (Nat.to_uint i).

Fixpoint indexed_from (i : nat) (l : list jsval) : obj :=
  match l with
  | [] => []
  | v :: l' => (index_key i, v) :: indexed_from (S i) l'
  end.

Fixpoint chars (s : string) : list jsval :=
  match s with
  | EmptyString => []
  | String c s' => VString (String c EmptyString) :: chars s'
  end.

(** The own enumerable string-keyed properties of a value that is neither
    [null] nor [undefined]: those of an object, the indexed elements of an
    array, the indexed characters of a string, none for the other
    primitives and for a [Date]. *)
Definition own_entries (v : jsval) : obj :=
  match v with
  | VObject props => props
  | VArray elems => indexed_from 0 elems
  | VString s => indexed_from 0 (chars s)
  | _ => []
  end.

(** ** Outcomes *)

Inductive exn : Type :=
| TypeError
| Rejected (reason : jsval).

Inductive outcome (A : Type) : Type :=
| Return (a : A)
| Throw (e : exn).

Arguments Return {A} a.
Arguments Throw {A} e.

Definition bind {A B : Type} (c : outcome A) (k : A -> outcome B) : outcome B :=
  match c with
  | Return a => k a
  | Throw e => Throw e
  end.

Declare Scope outcome_scope.
Delimit Scope outcome_scope with outcome.
Notation "x <- c ;; k" := (bind c (fun x => k))
  (at level 100, c at next level, right associativity) : outcome_scope.
Local Open Scope outcome_scope.

(** [l.map(f)] when the callback can raise: the first raise ends the map. *)
Fixpoint map_outcome {A B : Type} (f : A -> outcome B) (l : list A)
  : outcome (list B) :=
  match l with
  | [] => Return []
  | a :: l' =>
      b <- f a ;;
      bs <- map_outcome f l' ;;
      Return (b :: bs)
  end.

(** A [for] loop over a list whose body can raise. *)
Fixpoint fold_outcome {A S : Type} (f : S -> A -> outcome S) (l : list A)
  (s : S) : outcome S :=
  match l with
  | [] => Return s
  | a :: l' => s' <- f s a ;; fold_outcome f l' s'
  end.

(** [v.k] and [v[k]] for the property names this code reads ([country],
    [province], [city], [length] and array indices): a [TypeError] on
    [null] and [undefined], the length of an array or a string, an own
    entry, and [undefined] otherwise. *)
Definition get_prop (v : jsval) (k : string) : outcome jsval :=
  match v with
  | VUndefined | VNull => Throw TypeError
  | VArray elems =>
      if (k =? "length")%string
      then Return (VNumber (Fin (Z.of_nat (List.length elems))))
      else Return (obj_get (own_entries v) k)
  | VString s =>
      if (k =? "length")%string
      then Return (VNumber (Fin (Z.of_nat (String.length s))))
      else Return (obj_get (own_entries v) k)
  | _ => Return (obj_get (own_entries v) k)
  end.

(** ** The language runtime *)

Record Runtime : Type := {
  (** [Date.parse]: the time value of a date string, [NaN] when the string
      is not a date. *)
  Date_parse : string -> num;
  (** [Date.parse] returns [NaN] or a time value. *)
  Date_parse_time_value : forall s, TimeClip (Date_parse s) = Date_parse s;
  (** [ToNumber] of a string. *)
  StringToNumber : string -> num;
  (** [ToNumber] of an array or an object: its conversion to a primitive,
      which can raise, then to a number. *)
  ObjectToNumber : jsval -> outcome num
}.

Section Conversions.
Context (rt : Runtime).

(** [ToNumber], the conversion behind [-], [*], [/] and [<]. *)
Definition ToNumber (v : jsval) : outcome num :=
  match v with
  | VUndefined => Return NaN
  | VNull => Return (Fin 0)
  | VBool b => Return (Fin (if b then 1 else 0))
  | VNumber n => Return n
  | VString s => Return (StringToNumber rt s)
  | VDate t => Return t
  | VArray _ | VObject _ => ObjectToNumber rt v
  end.
End Conversions.

(** ** Calls to the collaborators *)

Inductive call : Type :=
| CallFindMany (args : jsval)
| CallCount (args : jsval)
| CallCreate (args : jsval)
| CallCreateMany (args : jsval)
| CallDelete (args : jsval)
| CallUpdateMany (args : jsval)
| CallDisconnect
| CallConsoleError (label : option string) (error : exn).

Record world (S : Type) : Type := {
  store : S;
  log : list call
}.

Arguments store {S} w.
Arguments log {S} w.

Definition io (S A : Type) : Type := world S -> outcome A * world S.

Definition ret {S A : Type} (a : A) : io S A := fun w => (Return a, w).

Definition io_bind {S A B : Type} (c : io S A) (k : A -> io S B) : io S B :=
  fun w =>
    match c w with
    | (Return a, w') => k a w'
    | (Throw e, w') => (Throw e, w')
    end.

Declare Scope io_scope.
Delimit Scope io_scope with io.
Notation "x <- c ;; k" := (io_bind c (fun x => k))
  (at level 100, c at next level, right associativity) : io_scope.

(** A computation without effects, inside an [async] function. *)
Definition lift {S A : Type} (c : outcome A) : io S A := fun w => (c, w).

(** One call to a collaborator: it is logged, then run on the store. *)
Definition perform {S A : Type} (c : call) (f : S -> outcome A * S) : io S A :=
  fun w =>
    let (r, s') := f (store w) in
    (r, {| store := s'; log := log w ++ [c] |}).

(** [try { body } catch (error) { handler }] *)
Definition try_catch {S A : Type} (body : io S A) (handler : exn -> io S A)
  : io S A :=
  fun w =>
    match body w with
    | (Return a, w') => (Return a, w')
    | (Throw e, w') => handler e w'
    end.

(** [... finally { cleanup }]: the cleanup runs after the body however it
    ended; when the cleanup raises, its error replaces the body's result. *)
Definition finally {S A B : Type} (body : io S A) (cleanup : io S B) : io S A :=
  fun w =>
    let (r, w1) := body w in
    match cleanup w1 with
    | (Return _, w2) => (r, w2)
    | (Throw e, w2) => (Throw e, w2)
    end.

(** [console.error(...)] *)
Definition console_error {S : Type} (label : option string) (error : exn)
  : io S unit :=
  fun w =>
    (Return tt, {| store := store w;
                   log := log w ++ [CallConsoleError label error] |}).

(** A Prisma model delegate, as far as this code calls it. *)
Record Collection (S : Type) : Type := {
  findMany : jsval -> S -> outcome jsval * S;
  count : jsval -> S -> outcome num * S;
  create : jsval -> S -> outcome jsval * S;
  createMany : jsval -> S -> outcome jsval * S;
  delete : jsval -> S -> outcome jsval * S;
  updateMany : jsval -> S -> outcome jsval * S
}.

Arguments findMany {S} c.
Arguments count {S} c.
Arguments create {S} c.
Arguments createMany {S} c.
Arguments delete {S} c.
Arguments updateMany {S} c.

(** The Prisma client, as far as this code calls it. *)
Record Prisma (S : Type) : Type := {
  disconnect : S -> outcome jsval * S
}.

Arguments disconnect {S} p.

(** ** src/sqlUtil.js: the extended version *)

Module SqlUtil.

(** [removeNullValues(obj)]: [Object.keys] raises on [null] and
    [undefined]. *)
Definition removeNullValues (o : jsval) : outcome jsval :=
  if is_nullish o then Throw TypeError
  else
    Return
      (VObject
         (fold_left
            (fun newObj key =>
               if negb (is_null (obj_get (own_entries o) key))
               then obj_set newObj key (obj_get (own_entries o) key)
               else newObj)
            (keys (own_entries o)) [])).

(** [a && b] on conditions whose evaluation can raise. *)
Definition and_then (a b : outcome bool) : outcome bool :=
  x <- a ;; if x then b else Return false.

Definition is_truthy (c : outcome jsval) : outcome bool :=
  v <- c ;; Return (truthy v).

Definition is_falsy (c : outcome jsval) : outcome bool :=
  v <- c ;; Return (negb (truthy v)).

(** The callback of [value.map] in the address branch. *)
Definition address_clause (key : string) (param : jsval) : outcome jsval :=
  result <- removeNullValues param ;;
  country_only <-
    and_then (is_truthy (get_prop param "country"))
      (and_then (is_falsy (get_prop param "province"))
         (is_falsy (get_prop param "city"))) ;;
  if country_only then
    country <- get_prop param "country" ;;
    Return
      (VObject
         [(key, VObject [("path", VArray [VString "country"]);
                         ("equals", country)])])
  else
    Return (VObject [(key, VObject [("equals", result)])]).

Section HandleConditions.
Context (rangeField ListField addressField logicAndListField
           searchField : list string).

(** The body of the [for ... in] loop, for one own property of
    [conditions].  [value.map] raises when [value] is not an array. *)
Definition handle_entry (where_ : obj) (entry : string * jsval)
  : outcome obj :=
  let (key, value) := entry in
  if includes addressField key then
    match value with
    | VArray params =>
        clauses <- map_outcome (address_clause key) params ;;
        Return (obj_set where_ "OR" (VArray clauses))
    | _ => Throw TypeError
    end
  else
    match value with
    | VArray elems =>
        if includes rangeField key then
          Return
            (obj_set where_ key
               (VObject [("gte", nth 0 elems VUndefined);
                         ("lte", nth 1 elems VUndefined)]))
        else if includes logicAndListField key then
          Return (obj_set where_ key (VObject [("hasEvery", value)]))
        else if includes ListField key then
          Return (obj_set where_ key (VObject [("hasSome", value)]))
        else
          Return (obj_set where_ key (VObject [("in", value)]))
    | _ =>
        if includes searchField key then
          Return (obj_set where_ key (VObject [("contains", value)]))
        else
          Return (obj_set where_ key (VObject [("equals", value)]))
    end.

(** [handleConditions]: [conditions] is given by its own enumerable
    properties, which are the ones the loop keeps. *)
Definition handleConditions (conditions : obj) : outcome obj :=
  fold_outcome handle_entry conditions [].
End HandleConditions.

Section WithRuntime.
Context (rt : Runtime).

(** [getPagination(pageNumber, pageSize)] *)
Definition getPagination (pageNumber pageSize : jsval) : outcome obj :=
  let page := js_or pageNumber (VNumber (Fin 1)) in
  let limit := js_or pageSize (VNumber (Fin 20)) in
  p <- ToNumber rt page ;;
  l <- ToNumber rt limit ;;
  let skip := VNumber (num_mul (num_sub p (Fin 1)) l) in
  let take := limit in
  Return [("take", take); ("skip", skip)].

(** [onDataProcess?.(data) ?? data] *)
Definition process (onDataProcess : option (jsval -> outcome jsval))
  (data : jsval) : outcome jsval :=
  match onDataProcess with
  | None => Return data
  | Some f => r <- f data ;; Return (js_coalesce r data)
  end.

(** [fetchDataWithPagination] *)
Definition fetchDataWithPagination {S : Type}
  (pageNumber pageSize : jsval) (conditions : obj)
  (collection : Collection S) (orderByField : jsval)
  (rangeField ListField addressField logicAndListField
     searchField : list string)
  (onDataProcess : option (jsval -> outcome jsval)) : io S jsval :=
  (pagination <- lift (getPagination pageNumber pageSize) ;;
   let take := obj_get pagination "take" in
   let skip := obj_get pagination "skip" in
   query <- lift (handleConditions rangeField ListField addressField
                    logicAndListField searchField conditions) ;;
   data <- perform
             (CallFindMany
                (VObject [("where", VObject query);
                          ("orderBy", orderByField);
                          ("take", take); ("skip", skip)]))
             (findMany collection
                (VObject [("where", VObject query);
                          ("orderBy", orderByField);
                          ("take", take); ("skip", skip)])) ;;
   totalCount <- perform
                   (CallCount (VObject [("where", VObject query)]))
                   (count collection
                      (VObject [("where", VObject query)])) ;;
   size <- lift (ToNumber rt pageSize) ;;
   let totalPages := Math_ceil_div totalCount size in
   result <- lift (process onDataProcess data) ;;
   ret (VObject [("data", result);
                 ("total", VNumber totalCount);
                 ("totalPages", VNumber totalPages);
                 ("currentPage", pageNumber)]))%io.

(** [typeof input === "object" && input !== null && k in input], for
    the name [_seconds], which no built-in prototype defines. *)
Definition is_object_with (input : jsval) (k : string) : bool :=
  match input with
  | VObject _ | VArray _ | VDate _ => obj_has (own_entries input) k
  | _ => false
  end.

(** [toSQLDateTime(input)] *)
Definition toSQLDateTime (input : jsval) : outcome jsval :=
  match input with
  | VString s =>
      let timestamp := Date_parse rt s in
      if negb (isNaN timestamp) then Return (VDate (TimeClip timestamp))
      else Return VNull
  | _ =>
      if is_object_with input "_seconds" then
        seconds <- ToNumber rt (obj_get (own_entries input) "_seconds") ;;
        Return (VDate (TimeClip (num_mul seconds (Fin 1000))))
      else Return VNull
  end.

(** The [options] of [transformData]; an absent field is [None]. *)
Record Options : Type := {
  dateFields : option (list string);
  allFields : option (list string)
}.

Definition or_empty (l : option (list string)) : list string :=
  match l with Some l' => l' | None => [] end.

(** The body of the [for ... in] loop of [transformData]. *)
Definition transform_key (dateFields allFields : list string)
  (result : obj) (key : string) : outcome obj :=
  let result1 :=
    if negb (includes allFields key) then obj_delete result key
    else result in
  let val := obj_get result1 key in
  let result2 :=
    if is_nullish val then obj_delete result1 key else result1 in
  if includes dateFields key then
    date <- toSQLDateTime (obj_get result2 key) ;;
    Return (obj_set result2 key date)
  else Return result2.

(** [{...data}] *)
Definition spread (data : jsval) : obj :=
  if is_nullish data then [] else own_entries data.

(** [transformData(data, options)]: the loop visits the keys the copy
    has when it starts, each once. *)
Definition transformData (data : jsval) (options : option Options)
  : outcome obj :=
  let dateFields :=
    match options with Some o => or_empty (dateFields o) | None => [] end in
  let allFields :=
    match options with Some o => or_empty (allFields o) | None => [] end in
  let result := spread data in
  fold_outcome (transform_key dateFields allFields) (keys result) result.
End WithRuntime.

Section Mutations.
Context {S : Type}.

Definition createData (prisma : Prisma S) (collection : Collection S)
  (data : jsval) : io S jsval :=
  finally
    (try_catch
       (newData <- perform (CallCreate (VObject [("data", data)]))
                     (create collection (VObject [("data", data)])) ;;
        ret (VObject [("success", VBool true); ("data", newData)]))%io
       (fun error =>
          (_ <- console_error (Some "Error creating data:") error ;;
           ret (VObject [("success", VBool false);
                         ("error", VString "Error creating data")]))%io))
    (perform CallDisconnect (disconnect prisma)).

Definition batchCreateData (prisma : Prisma S) (collection : Collection S)
  (listData : jsval) : io S jsval :=
  finally
    (try_catch
       (_ <- perform (CallCreateMany (VObject [("data", listData)]))
               (createMany collection (VObject [("data", listData)])) ;;
        ret (VObject [("success", VBool true)]))%io
       (fun error =>
          (_ <- console_error (Some "Error creating users:") error ;;
           ret (VObject [("success", VBool false);
                         ("error", VString "Error creating data")]))%io))
    (perform CallDisconnect (disconnect prisma)).

Definition deleteData (prisma : Prisma S) (collection : Collection S)
  (id : jsval) : io S jsval :=
  finally
    (try_catch
       (_ <- perform
               (CallDelete (VObject [("where", VObject [("id", id)])]))
               (delete collection
                  (VObject [("where", VObject [("id", id)])])) ;;
        ret (VObject [("success", VBool true)]))%io
       (fun error =>
          (_ <- console_error (Some "Error deleting data:") error ;;
           ret (VObject [("success", VBool false);
                         ("error", VString "Error deleting data")]))%io))
    (perform CallDisconnect (disconnect prisma)).

Definition updateFields (prisma : Prisma S) (collection : Collection S)
  (dataToUpdate id : jsval) : io S jsval :=
  finally
    (try_catch
       (_ <- perform
               (CallUpdateMany
                  (VObject [("where", VObject [("id", id)]);
                            ("data", dataToUpdate)]))
               (updateMany collection
                  (VObject [("where", VObject [("id", id)]);
                            ("data", dataToUpdate)])) ;;
        ret (VObject [("success", VBool true)]))%io
       (fun error =>
          (_ <- console_error None error ;;
           ret (VObject [("success", VBool false)]))%io))
    (perform CallDisconnect (disconnect prisma)).
End Mutations.

(** [Reflect.ownKeys(data)]: the own keys of an object, enumerable or not
    (an array has its indices and [length]); a [TypeError] on a value that
    is not an object.  The data model has no symbol keys. *)
Definition ownKeys (data : jsval) : outcome (list string) :=
  match data with
  | VObject props => Return (keys props)
  | VArray elems => Return (keys (indexed_from 0 elems) ++ ["length"])
  | VDate _ => Return []
  | _ => Throw TypeError
  end.

(** [checkConditions(data, options)]: [options.allFields] raises when
    [options] is null or undefined. *)
Definition checkConditions (data : jsval) (options : option Options)
  : outcome bool :=
  match options with
  | None => Throw TypeError
  | Some o =>
      let allFields := or_empty (allFields o) ++ ["AND"; "OR"; "NOT"] in
      result <- ownKeys data ;;
      Return (forallb (fun k => includes allFields k) result)
  end.

(** What [generateValuesClause] answers: a string, or the [RangeError] of
    [Array.from] on a length no array can have. *)
Inductive clause_result : Type :=
| Clause (text : string)
| RangeError.

(** The template [`$${index + 1}`]. *)
Definition placeholder (index : nat) : string :=
  String.append "$" (index_key (index + 1)).

(** [generateValuesClause(length)], on a number: [NaN <= 0] is false and
    [Array.from({length: NaN})] is empty; an array has at most 2^32 - 1
    elements. *)
Definition generateValuesClause (length : num) : clause_result :=
  match length with
  | Fin z =>
      if z <=? 0 then Clause ""
      else if z <? 2 ^ 32 then
        Clause
          (String.append "VALUES("
             (String.append
                (String.concat ", " (map placeholder (seq 0 (Z.to_nat z))))
                ")"))
      else RangeError
  | NInf => Clause ""
  | PInf => RangeError
  | NaN => Clause "VALUES()"
  end.

End SqlUtil.

(** ** src/unnamed/part_000: the simpler version

    Of this version only [handleConditions] differs from the extended one
    in what it computes; the other methods are the same text. *)

Module Part000.

Section HandleConditions.
Context (rt : Runtime).
Context (rangeField ListField addressField : list string).

(** [if (address[field]) addressFilter.push({[key]: {path: [field],
    equals: address[field]}})] *)
Definition push_field (key field : string) (address : jsval)
  (addressFilter : list jsval) : outcome (list jsval) :=
  test <- get_prop address field ;;
  if truthy test then
    v <- get_prop address field ;;
    Return
      (addressFilter ++
       [VObject [(key, VObject [("path", VArray [VString field]);
                                ("equals", v)])]])
  else Return addressFilter.

(** [for (let i = 0; i < value.length; i++) { ... }], from index [i] on.
    Every round that does not raise reads one more own entry of [value], so
    the loop ends within one round more than [value] has entries: that is
    the [fuel] the caller gives, and the first case is not reached. *)
Fixpoint address_loop (fuel : nat) (key : string) (value : jsval) (i : nat)
  (addressFilter : list jsval) : outcome (list jsval) :=
  match fuel with
  | O => Throw TypeError
  | S fuel' =>
      len <- get_prop value "length" ;;
      n <- ToNumber rt len ;;
      if num_ltb (Fin (Z.of_nat i)) n then
        address <- get_prop value (index_key i) ;;
        f1 <- push_field key "city" address addressFilter ;;
        f2 <- push_field key "country" address f1 ;;
        f3 <- push_field key "province" address f2 ;;
        address_loop fuel' key value (S i) f3
      else Return addressFilter
  end.

(** The body of the [for ... in] loop, for one own property of
    [conditions]. *)
Definition handle_entry (where_ : obj) (entry : string * jsval)
  : outcome obj :=
  let (key, value) := entry in
  if includes addressField key then
    addressFilter <-
      address_loop (S (List.length (own_entries value))) key value 0 [] ;;
    Return (obj_set where_ "OR" (VArray addressFilter))
  else
    match value with
    | VArray elems =>
        if includes rangeField key then
          Return
            (obj_set where_ key
               (VObject [("gte", nth 0 elems VUndefined);
                         ("lte", nth 1 elems VUndefined)]))
        else if includes ListField key then
          Return (obj_set where_ key (VObject [("hasSome", value)]))
        else
          Return (obj_set where_ key (VObject [("in", value)]))
    | _ => Return (obj_set where_ key (VObject [("equals", value)]))
    end.

Definition handleConditions (conditions : obj) : outcome obj :=
  fold_outcome handle_entry conditions [].

(** [fetchDataWithPagination] of the simpler version: the pagination and
    the callback are those of the extended version, the predicate is the
    simpler translator's. *)
Definition fetchDataWithPagination {S : Type}
  (pageNumber pageSize : jsval) (conditions : obj)
  (collection : Collection S) (orderByField : jsval)
  (onDataProcess : option (jsval -> outcome jsval)) : io S jsval :=
  (pagination <- lift (SqlUtil.getPagination rt pageNumber pageSize) ;;
   let take := obj_get pagination "take" in
   let skip := obj_get pagination "skip" in
   query <- lift (handleConditions conditions) ;;
   data <- perform
             (CallFindMany
                (VObject [("where", VObject query);
                          ("orderBy", orderByField);
                          ("take", take); ("skip", skip)]))
             (findMany collection
                (VObject [("where", VObject query);
                          ("orderBy", orderByField);
                          ("take", take); ("skip", skip)])) ;;
   totalCount <- perform
                   (CallCount (VObject [("where", VObject query)]))
                   (count collection
                      (VObject [("where", VObject query)])) ;;
   size <- lift (ToNumber rt pageSize) ;;
   let totalPages := Math_ceil_div totalCount size in
   result <- lift (SqlUtil.process onDataProcess data) ;;
   ret (VObject [("data", result);
                 ("total", VNumber totalCount);
                 ("totalPages", VNumber totalPages);
                 ("currentPage", pageNumber)]))%io.
End HandleConditions.

End Part000.

(** ** The vocabulary of the specification *)

(** The translation rules of the condition translator. *)
Inductive Category : Type :=
| AddressField
| RangeField
| LogicAndListField
| LogicOrListField
| DefaultArray
| Search
| DefaultScalar.


(** [v[i]] on an array. *)
Definition at_index (v : jsval) (i : nat) : jsval :=
  match v with VArray elems => nth i elems VUndefined | _ => VUndefined end.

Section Classification.
Context (rangeField ListField addressField logicAndListField
           searchField : list string).


(** The same priority, with the range rule taking every list. *)
Definition classify (key : string) (value : jsval) : Category :=
  if includes addressField key then AddressField
  else if includes rangeField key && isArray value then RangeField
  else if includes logicAndListField key && isArray value
       then LogicAndListField
  else if includes ListField key && isArray value then LogicOrListField
  else if isArray value then DefaultArray
  else if includes searchField key then Search
  else DefaultScalar.
End Classification.

(** The OR list of an address field: one sub-clause per nested object. *)
Definition address_or_list (key : string) (value : jsval) : outcome jsval :=
  match value with
  | VArray params =>
      clauses <- map_outcome (SqlUtil.address_clause key) params ;;
      Return (VArray clauses)
  | _ => Throw TypeError
  end.

(** The clause each category emits for a key and its value. *)
Definition clause_of (c : Category) (key : string) (value : jsval)
  : outcome jsval :=
  match c with
  | AddressField => address_or_list key value
  | RangeField =>
      Return (VObject [("gte", at_index value 0); ("lte", at_index value 1)])
  | LogicAndListField => Return (VObject [("hasEvery", value)])
  | LogicOrListField => Return (VObject [("hasSome", value)])
  | DefaultArray => Return (VObject [("in", value)])
  | Search => Return (VObject [("contains", value)])
  | DefaultScalar => Return (VObject [("equals", value)])
  end.

(** Where the clause goes in the predicate: the sub-clauses of an address
    field under [OR], every other clause under its own key. *)
Definition clause_key (c : Category) (key : string) : string :=
  match c with AddressField => "OR" | _ => key end.


(** [o] without its null-valued keys. *)
Definition strip_nulls (o : obj) : obj :=
  filter (fun kv => negb (is_null (snd kv))) o.

(** A nested-path-equals clause on [country]. *)
Definition country_clause (key : string) (country : jsval) : jsval :=
  VObject [(key, VObject [("path", VArray [VString "country"]);
                          ("equals", country)])].

(** An equals clause matching a whole object. *)
Definition whole_object_clause (key : string) (o : obj) : jsval :=
  VObject [(key, VObject [("equals", VObject o)])].

(** [k] is the only key of [o]. *)
Definition only_key (o : obj) (k : string) : bool :=
  match keys o with
  | [k'] => (k' =? k)%string
  | _ => false
  end.

(** The sub-clause of a nested address object in the specification's
    words: the country clause when [country] is the only key left after
    the null-valued keys are stripped, the whole stripped object
    otherwise. *)
Definition address_clause_as_specified (key : string) (o : obj) : jsval :=
  if only_key (strip_nulls o) "country"
  then country_clause key (obj_get o "country")
  else whole_object_clause key (strip_nulls o).

(** A nested object as the address fields hold them: its keys are among
    [country], [province] and [city], and a value that is not null is
    truthy (a non-empty string, say). *)
Definition address_shaped (o : obj) : Prop :=
  forall k v,
    In (k, v) o ->
    (k = "country" \/ k = "province" \/ k = "city") /\
    (is_null v = true \/ truthy v = true).

(** The test the code makes: a truthy [country], and neither a truthy
    [province] nor a truthy [city]; other keys are not looked at. *)
Definition country_alone (o : obj) : bool :=
  truthy (obj_get o "country")
  && negb (truthy (obj_get o "province"))
  && negb (truthy (obj_get o "city")).

Definition address_clause_by_test (key : string) (o : obj) : jsval :=
  if country_alone o then country_clause key (obj_get o "country")
  else whole_object_clause key (strip_nulls o).

(** [n] is the quotient [t / s] rounded up, for a divisor that is not
    zero. *)
Definition is_ceiling (t s n : Z) : Prop :=
  (0 < s -> (n - 1) * s < t <= n * s) /\
  (s < 0 -> n * s <= t < (n - 1) * s).

(** The record a paginated fetch returns. *)
Definition envelope (data : jsval) (total totalPages : num)
  (currentPage : jsval) : jsval :=
  VObject [("data", data); ("total", VNumber total);
           ("totalPages", VNumber totalPages); ("currentPage", currentPage)].

(** The arguments of the two store queries of a paginated fetch. *)
Definition findMany_args (query : obj) (orderBy take skip : jsval) : jsval :=
  VObject [("where", VObject query); ("orderBy", orderBy);
           ("take", take); ("skip", skip)].

Definition count_args (query : obj) : jsval :=
  VObject [("where", VObject query)].

(** How often the connection was released in a log. *)
Definition disconnects (l : list call) : nat :=
  List.length
    (filter (fun c => match c with CallDisconnect => true | _ => false end) l).

(** [v || d]: the argument, or its default when it is falsy. *)
Definition default_when_falsy (v : jsval) (d : Z) : jsval :=
  if truthy v then v else VNumber (Fin d).

(** An integer of at most 2^53 in absolute value: the numbers of the
    language hold every such integer exactly. *)
Definition exact_integer (z : Z) : bool := Z.abs z <=? 2 ^ 53.

(** The page number or size an integer argument resolves to. *)
Definition resolve_int (z d : Z) : Z := if z =? 0 then d else z.


(** The clause of a range field in the code: positions 0 and 1 of a list,
    and the scalar rules for anything else. *)
Definition range_field_clause (searchField : list string) (key : string)
  (value : jsval) : jsval :=
  if isArray value then
    VObject [("gte", at_index value 0); ("lte", at_index value 1)]
  else if includes searchField key then VObject [("contains", value)]
  else VObject [("equals", value)].

(** [v] is a primitive or a [Date]: its conversion to a number cannot
    raise. *)
Definition converts_quietly (v : jsval) : bool :=
  match v with VArray _ | VObject _ => false | _ => true end.

(** [country] of a nested object, as both versions read it. *)
Definition country_of (p : jsval) : jsval :=
  obj_get (own_entries p) "country".

(** A nested object on which the two versions agree: its [country] is
    truthy, its [province] and [city] are not. *)
Definition country_only (p : jsval) : bool :=
  negb (is_nullish p)
  && truthy (country_of p)
  && negb (truthy (obj_get (own_entries p) "province"))
  && negb (truthy (obj_get (own_entries p) "city")).

(** The shape shared by the four operations: one store call, a logged
    error and a failure record when it raises, then the release. *)
Definition guarded {S : Type} (prisma : Prisma S) (c : call)
  (f : S -> outcome jsval * S)
  (on_success : jsval -> jsval) (label : option string) (on_failure : jsval)
  : io S jsval :=
  finally
    (try_catch
       (r <- perform c f ;; ret (on_success r))%io
       (fun error => (_ <- console_error label error ;; ret on_failure)%io))
    (perform CallDisconnect (disconnect prisma)).

(** What the projector is to keep of an object. *)
Definition projection (allFields : list string) (o : obj) : obj :=
  filter
    (fun kv => includes allFields (fst kv) && negb (is_nullish (snd kv))) o.

(** ** Sample data and test doubles *)

(** A runtime for inputs that hold no string to parse and no object to
    convert: every such conversion answers [NaN]. *)
Definition plain_runtime : Runtime :=
  {| Date_parse := fun _ => NaN;
     Date_parse_time_value := fun _ => eq_refl;
     StringToNumber := fun _ => NaN;
     ObjectToNumber := fun _ => Return NaN |}.

(** A store that holds [total] records and answers every page query with
    [page]; it accepts every write. *)
Definition fixed_collection (page : jsval) (total : Z) : Collection unit :=
  {| findMany := fun _ s => (Return page, s);
     count := fun _ s => (Return (Fin total), s);
     create := fun args s => (Return (obj_get (own_entries args) "data"), s);
     createMany := fun _ s => (Return VUndefined, s);
     delete := fun _ s => (Return VUndefined, s);
     updateMany := fun _ s => (Return VUndefined, s) |}.

(** A store whose every call is rejected with [reason]. *)
Definition failing_collection (reason : jsval) : Collection unit :=
  {| findMany := fun _ s => (Throw (Rejected reason), s);
     count := fun _ s => (Throw (Rejected reason), s);
     create := fun _ s => (Throw (Rejected reason), s);
     createMany := fun _ s => (Throw (Rejected reason), s);
     delete := fun _ s => (Throw (Rejected reason), s);
     updateMany := fun _ s => (Throw (Rejected reason), s) |}.

(** A client whose release succeeds. *)
Definition quiet_prisma : Prisma unit :=
  {| disconnect := fun s => (Return VUndefined, s) |}.

Definition fresh_world : world unit := {| store := tt; log := [] |}.



(** ** Vocabulary of the further properties *)

(** The value of an address field that the extended translator accepts: a
    list none of whose elements is null or undefined. *)
Definition address_list_ok (value : jsval) : bool :=
  match value with
  | VArray params => forallb (fun p => negb (is_nullish p)) params
  | _ => false
  end.

(** Every address field of a condition map holds such a list. *)
Definition address_values_ok (addressField : list string) (conditions : obj)
  : bool :=
  forallb
    (fun e => negb (includes addressField (fst e)) || address_list_ok (snd e))
    conditions.

(** The key a condition is written under. *)
Definition written_key (addressField : list string) (key : string) : string :=
  if includes addressField key then "OR" else key.

(** A call that reads the store. *)
Definition is_read (c : call) : bool :=
  match c with CallFindMany _ | CallCount _ => true | _ => false end.

(** The pages a fetch reports for a positive total when the page size was
    left out: the quotient by the raw argument, not by the default. *)
Definition pages_without_size (pageSize : jsval) : num :=
  match pageSize with VUndefined => NaN | _ => PInf end.

(** What the first two steps of the projector's loop leave under a key
    that held [v]: [v] when the key is allowed and [v] is neither null nor
    undefined, nothing otherwise. *)
Definition kept (allFields : list string) (key : string) (v : option jsval)
  : option jsval :=
  match v with
  | Some v' =>
      if includes allFields key && negb (is_nullish v') then Some v' else None
  | None => None
  end.

(** [result[key]] for a key that may be absent. *)
Definition value_or_undefined (v : option jsval) : jsval :=
  match v with Some v' => v' | None => VUndefined end.

(** The object after the first two steps of a round of the projector's
    loop. *)
Definition pruned (allFields : list string) (result : obj) (key : string)
  : obj :=
  let result1 :=
    if negb (includes allFields key) then obj_delete result key
    else result in
  if is_nullish (obj_get result1 key) then obj_delete result1 key
  else result1.

(** The keys the validator always lets through. *)
Definition connectors : list string := ["AND"; "OR"; "NOT"].

(** Options that name the allowed fields. *)
Definition allowing (allowed : list string) : SqlUtil.Options :=
  {| SqlUtil.dateFields := None; SqlUtil.allFields := Some allowed |}.


(** A client whose release fails with [reason]. *)
Definition broken_prisma (reason : jsval) : Prisma unit :=
  {| disconnect := fun s => (Throw (Rejected reason), s) |}.

(** The clause the simpler version pushes for one field of a nested
    object, when the field is truthy. *)
Definition path_clause (key field : string) (p : jsval) : list jsval :=
  if truthy (obj_get (own_entries p) field) then
    [VObject [(key, VObject [("path", VArray [VString field]);
                             ("equals", obj_get (own_entries p) field)])]]
  else [].

(** The clauses the simpler version pushes for a nested object: city,
    country and province, in this order. *)
Definition path_clauses (key : string) (p : jsval) : list jsval :=
  path_clause key "city" p ++ path_clause key "country" p
  ++ path_clause key "province" p.

(** * Properties *)

(** ** Objects, folds and outcomes *)

Lemma obj_lookup_set_same (o : obj) (k : string) (v : jsval) :
  obj_lookup (obj_set o k v) k = Some v.
Proof.
  induction o as [|[k' v'] o IH]; simpl.
  - now rewrite String.eqb_refl.
  - destruct (String.eqb k' k) eqn:E; simpl.
    + now rewrite String.eqb_refl.
    + now rewrite E.
Qed.

Lemma obj_lookup_set_other (o : obj) (k k' : string) (v : jsval) :
  k <> k' -> obj_lookup (obj_set o k v) k' = obj_lookup o k'.
Proof.
  intros Hne.
  induction o as [|[k0 v0] o IH]; simpl.
  - now apply String.eqb_neq in Hne as ->.
  - destruct (String.eqb k0 k) eqn:E; simpl.
    + apply String.eqb_eq in E. subst k0.
      now apply String.eqb_neq in Hne as ->.
    + now rewrite IH.
Qed.

Lemma obj_get_set_same (o : obj) (k : string) (v : jsval) :
  obj_get (obj_set o k v) k = v.
Proof. unfold obj_get. now rewrite obj_lookup_set_same. Qed.

Lemma fold_outcome_app {A S : Type} (f : S -> A -> outcome S)
  (l1 l2 : list A) (s : S) :
  fold_outcome f (l1 ++ l2) s =
  (s' <- fold_outcome f l1 s ;; fold_outcome f l2 s').
Proof.
  revert s. induction l1 as [|a l1 IH]; intros s; simpl.
  - reflexivity.
  - destruct (f s a); simpl; [apply IH | reflexivity].
Qed.


Lemma fold_outcome_ext_in {A S : Type} (f g : S -> A -> outcome S)
  (l : list A) (s : S) :
  (forall s' a, In a l -> f s' a = g s' a) ->
  fold_outcome f l s = fold_outcome g l s.
Proof.
  revert s. induction l as [|a l IH]; intros s Hfg; simpl.
  - reflexivity.
  - rewrite Hfg by now left.
    destruct (g s a); simpl; [|reflexivity].
    apply IH. intros s' a' Hin. apply Hfg. now right.
Qed.

Lemma includes_In (l : list string) (k : string) :
  includes l k = true <-> In k l.
Proof.
  unfold includes. rewrite existsb_exists. split.
  - intros [x [Hin Heq]]. apply String.eqb_eq in Heq. now subst.
  - intros Hin. exists k. split; [assumption | apply String.eqb_refl].
Qed.

(** ** The condition translator classifies by priority *)

Section Translator.
Context (rangeField ListField addressField logicAndListField
           searchField : list string).

Local Abbreviation handle_entry :=
  (SqlUtil.handle_entry rangeField ListField addressField logicAndListField
     searchField).
Local Abbreviation handleConditions :=
  (SqlUtil.handleConditions rangeField ListField addressField
     logicAndListField searchField).
Local Abbreviation classify_ :=
  (classify rangeField ListField addressField logicAndListField searchField).

(** One round of the loop is the emission of the clause of the category
    that [classify] picks. *)
Lemma handle_entry_classified (where_ : obj) (entry : string * jsval) :
  handle_entry where_ entry =
  (clause <- clause_of (classify_ (fst entry) (snd entry))
               (fst entry) (snd entry) ;;
   Return (obj_set where_
             (clause_key (classify_ (fst entry) (snd entry)) (fst entry))
             clause)).
Proof.
  destruct entry as [key value]. unfold SqlUtil.handle_entry, classify. simpl.
  destruct (includes addressField key).
  - destruct value; simpl; try reflexivity.
    destruct (map_outcome (SqlUtil.address_clause key) elems); reflexivity.
  - destruct value; simpl;
      repeat rewrite andb_false_r;
      repeat rewrite andb_true_r;
      repeat match goal with
             | |- context [if includes ?l key then _ else _] =>
                 destruct (includes l key); simpl
             end;
      reflexivity.
Qed.


(** An entry that is not an address field never raises, and writes under
    its own key. *)
Lemma handle_entry_plain (where_ : obj) (key : string) (value : jsval) :
  includes addressField key = false ->
  exists clause,
    clause_of (classify_ key value) key value = Return clause /\
    clause_key (classify_ key value) key = key /\
    handle_entry where_ (key, value) = Return (obj_set where_ key clause).
Proof.
  intros Hna. rewrite handle_entry_classified. simpl.
  unfold classify. rewrite Hna.
  destruct (includes rangeField key && isArray value);
    [eexists; repeat split; reflexivity|].
  destruct (includes logicAndListField key && isArray value);
    [eexists; repeat split; reflexivity|].
  destruct (includes ListField key && isArray value);
    [eexists; repeat split; reflexivity|].
  destruct (isArray value); [eexists; repeat split; reflexivity|].
  destruct (includes searchField key); eexists; repeat split; reflexivity.
Qed.

(** Every round writes one key: [OR] for an address field, the entry's own
    key otherwise. *)
Lemma handle_entry_writes (where_ where' : obj) (entry : string * jsval) :
  handle_entry where_ entry = Return where' ->
  exists clause,
    where' = obj_set where_
               (if includes addressField (fst entry) then "OR" else fst entry)
               clause.
Proof.
  destruct entry as [key value]. cbn [fst].
  destruct (includes addressField key) eqn:Ha.
  - unfold SqlUtil.handle_entry. rewrite Ha.
    destruct value; try discriminate.
    destruct (map_outcome (SqlUtil.address_clause key) elems);
      simpl; [|discriminate].
    intros [= <-]. now eexists.
  - destruct (handle_entry_plain where_ key value Ha) as (c & _ & _ & ->).
    intros [= <-]. now eexists.
Qed.

(** Rounds that write other keys leave [k] as it was. *)
Lemma fold_keeps_other_keys (k : string) (l : obj) (acc where_ : obj) :
  (forall e, In e l ->
             (if includes addressField (fst e) then "OR" else fst e) <> k) ->
  fold_outcome handle_entry l acc = Return where_ ->
  obj_lookup where_ k = obj_lookup acc k.
Proof.
  revert acc. induction l as [|e l IH]; intros acc Hk; simpl.
  - now intros [= <-].
  - destruct (handle_entry acc e) as [acc'|] eqn:He; simpl; [|discriminate].
    intros Hfold.
    rewrite (IH acc') by (try assumption; intros e' He'; apply Hk; now right).
    apply handle_entry_writes in He as [c ->].
    apply obj_lookup_set_other. apply Hk. now left.
Qed.



End Translator.




(** ** Address fields *)

Lemma obj_set_new (o : obj) (k : string) (v : jsval) :
  ~ In k (keys o) -> obj_set o k v = o ++ [(k, v)].
Proof.
  induction o as [|[k' v'] o IH]; simpl; intros Hnin.
  - reflexivity.
  - destruct (String.eqb k' k) eqn:E.
    + apply String.eqb_eq in E. exfalso. apply Hnin. now left.
    + f_equal. apply IH. intros Hin. apply Hnin. now right.
Qed.

Lemma obj_lookup_In (o : obj) (k : string) (v : jsval) :
  NoDup (keys o) -> In (k, v) o -> obj_lookup o k = Some v.
Proof.
  induction o as [|[k' v'] o IH]; simpl; intros Hnd Hin.
  - contradiction.
  - inversion Hnd as [|? ? Hnin Hnd']; subst.
    destruct Hin as [[= -> ->]|Hin].
    + now rewrite String.eqb_refl.
    + destruct (String.eqb k' k) eqn:E.
      * apply String.eqb_eq in E. subst k'. exfalso. apply Hnin.
        now apply (in_map fst) in Hin.
      * now apply IH.
Qed.

Lemma keys_strip_nulls_incl (o : obj) (k : string) :
  In k (keys (strip_nulls o)) -> In k (keys o).
Proof.
  unfold keys, strip_nulls. rewrite !in_map_iff.
  intros [kv [Hk Hin]]. apply filter_In in Hin as [Hin _]. now exists kv.
Qed.

Lemma strip_nulls_app (l1 l2 : obj) :
  strip_nulls (l1 ++ l2) = strip_nulls l1 ++ strip_nulls l2.
Proof. apply filter_app. Qed.

(** The loop of [removeNullValues], from the keys [keys l2] on. *)
Lemma removeNullValues_loop (o l2 l1 : obj) :
  o = l1 ++ l2 ->
  NoDup (keys o) ->
  fold_left
    (fun newObj key =>
       if negb (is_null (obj_get o key))
       then obj_set newObj key (obj_get o key)
       else newObj)
    (keys l2) (strip_nulls l1) = strip_nulls o.
Proof.
  revert l1. induction l2 as [|[k v] l2 IH]; intros l1 Ho Hnd; simpl.
  - now rewrite Ho, app_nil_r.
  - assert (Hget : obj_get o k = v).
    { unfold obj_get. rewrite (obj_lookup_In o k v Hnd); [reflexivity|].
      rewrite Ho. apply in_or_app. right. now left. }
    assert (Hnew : ~ In k (keys (strip_nulls l1))).
    { intros Hin. apply keys_strip_nulls_incl in Hin.
      rewrite Ho in Hnd. unfold keys in Hnd. rewrite map_app in Hnd.
      simpl in Hnd. apply NoDup_remove_2 in Hnd. apply Hnd.
      apply in_or_app. now left. }
    rewrite Hget.
    replace (if negb (is_null v)
             then obj_set (strip_nulls l1) k v else strip_nulls l1)
      with (strip_nulls (l1 ++ [(k, v)])).
    + apply IH; [|assumption]. now rewrite <- app_assoc.
    + rewrite strip_nulls_app. simpl.
      destruct (is_null v); simpl.
      * now rewrite app_nil_r.
      * now rewrite obj_set_new.
Qed.

Lemma removeNullValues_object (o : obj) :
  NoDup (keys o) ->
  SqlUtil.removeNullValues (VObject o) = Return (VObject (strip_nulls o)).
Proof.
  intros Hnd. unfold SqlUtil.removeNullValues.
  cbn [is_nullish own_entries]. do 2 f_equal.
  exact (removeNullValues_loop o o [] eq_refl Hnd).
Qed.

(** The sub-clause of a nested object is decided by the test on
    [country], [province] and [city]. *)
Lemma address_clause_object (key : string) (o : obj) :
  NoDup (keys o) ->
  SqlUtil.address_clause key (VObject o) =
  Return (address_clause_by_test key o).
Proof.
  intros Hnd. unfold SqlUtil.address_clause.
  rewrite (removeNullValues_object o Hnd).
  unfold address_clause_by_test, country_alone. simpl.
  destruct (truthy (obj_get o "country")); simpl; [|reflexivity].
  destruct (truthy (obj_get o "province")); simpl; [reflexivity|].
  destruct (truthy (obj_get o "city")); reflexivity.
Qed.

Lemma map_address_clause (key : string) (os : list obj) :
  Forall (fun o => NoDup (keys o)) os ->
  map_outcome (SqlUtil.address_clause key) (map VObject os) =
  Return (map (address_clause_by_test key) os).
Proof.
  induction 1 as [|o os Ho _ IH]; simpl.
  - reflexivity.
  - now rewrite (address_clause_object key o Ho), IH.
Qed.

(** *** Where the specified sub-clause and the emitted one agree *)

Lemma obj_lookup_Some_pair (o : obj) (k : string) (v : jsval) :
  obj_lookup o k = Some v -> In (k, v) o.
Proof.
  induction o as [|[k' v'] o IH]; simpl; [discriminate|].
  destruct (String.eqb_spec k' k) as [->|_].
  - intros [= ->]. now left.
  - intros H. right. now apply IH.
Qed.

Lemma NoDup_keys_strip_nulls (o : obj) :
  NoDup (keys o) -> NoDup (keys (strip_nulls o)).
Proof.
  induction o as [|[k v] o IH]; simpl; intros Hnd; [constructor|].
  inversion Hnd as [|? ? Hnin Hnd']; subst.
  destruct (is_null v); simpl; [now apply IH|].
  constructor; [|now apply IH].
  intros Hin. apply Hnin. now apply keys_strip_nulls_incl.
Qed.

Lemma singleton_of_same {A : Type} (l : list A) (a : A) :
  NoDup l -> In a l -> (forall x, In x l -> x = a) -> l = [a].
Proof.
  intros Hnd Hin Hall.
  destruct l as [|x l]; [contradiction|].
  assert (x = a) by (apply Hall; now left). subst x.
  destruct l as [|y l]; [reflexivity|].
  assert (y = a) by (apply Hall; right; now left). subst y.
  inversion Hnd as [|? ? Hnin _]. exfalso. apply Hnin. now left.
Qed.

Lemma In_strip_nulls (o : obj) (k : string) (v : jsval) :
  In (k, v) (strip_nulls o) <-> In (k, v) o /\ is_null v = false.
Proof.
  unfold strip_nulls. rewrite filter_In. simpl.
  now rewrite negb_true_iff.
Qed.

Lemma truthy_not_null (v : jsval) : truthy v = true -> is_null v = false.
Proof. now destruct v. Qed.

(** On an address-shaped object, a key holds a truthy value exactly when
    it is left after the null-valued keys are stripped. *)
Lemma truthy_get_iff_stripped (o : obj) (k : string) :
  NoDup (keys o) -> address_shaped o ->
  truthy (obj_get o k) = true <-> In k (keys (strip_nulls o)).
Proof.
  intros Hnd Hshape. split.
  - unfold obj_get. destruct (obj_lookup o k) as [v|] eqn:E; [|discriminate].
    intros Ht. apply obj_lookup_Some_pair in E.
    apply (in_map fst (strip_nulls o) (k, v)).
    apply In_strip_nulls. split; [assumption|now apply truthy_not_null].
  - intros Hin. apply in_map_iff in Hin as ([k' v] & Hk & Hin).
    simpl in Hk. subst k'. apply In_strip_nulls in Hin as [Hin Hnn].
    unfold obj_get. rewrite (obj_lookup_In o k v Hnd Hin).
    destruct (Hshape k v Hin) as [_ [Hnull|Ht]]; [congruence|assumption].
Qed.

Lemma only_key_country_iff (o : obj) :
  NoDup (keys o) -> address_shaped o ->
  only_key (strip_nulls o) "country" = country_alone o.
Proof.
  intros Hnd Hshape.
  pose proof (truthy_get_iff_stripped o "country" Hnd Hshape) as Hc.
  pose proof (truthy_get_iff_stripped o "province" Hnd Hshape) as Hp.
  pose proof (truthy_get_iff_stripped o "city" Hnd Hshape) as Hci.
  assert (Hkeys : forall k, In k (keys (strip_nulls o)) ->
                            k = "country" \/ k = "province" \/ k = "city").
  { intros k Hin. apply in_map_iff in Hin as ([k' v] & Hk & Hin).
    simpl in Hk. subst k'. apply In_strip_nulls in Hin as [Hin _].
    now destruct (Hshape k v Hin). }
  pose proof (NoDup_keys_strip_nulls o Hnd) as Hnds.
  unfold country_alone, only_key.
  destruct (truthy (obj_get o "country")) eqn:Tc.
  - destruct (truthy (obj_get o "province")) eqn:Tp.
    + (* both country and province are left *)
      assert (H1 : In "country" (keys (strip_nulls o))) by now apply Hc.
      assert (H2 : In "province" (keys (strip_nulls o))) by now apply Hp.
      cbn [andb negb].
      destruct (keys (strip_nulls o)) as [|k1 [|k2 ks]]; try reflexivity.
      simpl in H1, H2. destruct H1 as [->|[]].
      destruct H2 as [H2|[]]. discriminate H2.
    + destruct (truthy (obj_get o "city")) eqn:Tci.
      * assert (H1 : In "country" (keys (strip_nulls o))) by now apply Hc.
        assert (H2 : In "city" (keys (strip_nulls o))) by now apply Hci.
        cbn [andb negb].
        destruct (keys (strip_nulls o)) as [|k1 [|k2 ks]]; try reflexivity.
        simpl in H1, H2. destruct H1 as [->|[]].
      destruct H2 as [H2|[]]. discriminate H2.
      * rewrite (singleton_of_same (keys (strip_nulls o)) "country");
          try assumption.
        -- reflexivity.
        -- now apply Hc.
        -- intros k Hin. destruct (Hkeys k Hin) as [-> | [-> | ->]].
           ++ reflexivity.
           ++ apply Hp in Hin. congruence.
           ++ apply Hci in Hin. congruence.
  - simpl. destruct (keys (strip_nulls o)) as [|k1 [|k2 ks]] eqn:E;
      try reflexivity.
    destruct (String.eqb_spec k1 "country") as [->|]; [|reflexivity].
    assert (Hfalse : false = true) by (apply Hc; now left).
    discriminate Hfalse.
Qed.

Lemma address_clause_on_address_shaped (key : string) (o : obj) :
  NoDup (keys o) -> address_shaped o ->
  address_clause_as_specified key o = address_clause_by_test key o.
Proof.
  intros Hnd Hshape.
  unfold address_clause_as_specified, address_clause_by_test.
  now rewrite only_key_country_iff.
Qed.

(** C2, as amended: for every address-classified key whose value is a list
    of nested filter objects, each nested object is translated to a
    nested-path-equals clause on path [country] when its [country] is
    truthy and neither its [province] nor its [city] is (whatever other
    keys it has), and otherwise to an equals clause matching the whole
    object stripped of its null-valued keys; the sub-clauses of the key
    are the predicate's OR list, as long as no later key of the map is an
    address field or [OR] itself.  The nested objects have no own key
    [__proto__], which the stripping would drop whatever its value.  On a
    nested object whose keys are among
    [country], [province] and [city] and whose values are null or truthy,
    the sub-clause is the one the specification describes. *)
Theorem address_field_fills_or_list :
  forall rangeField ListField addressField logicAndListField searchField
         key (nested : list obj),
    includes addressField key = true ->
    Forall (fun o => NoDup (keys o)) nested ->
    Forall (fun o => obj_has o "__proto__" = false) nested ->
    (forall where_,
        SqlUtil.handle_entry rangeField ListField addressField
          logicAndListField searchField where_
          (key, VArray (map VObject nested)) =
        Return (obj_set where_ "OR"
                  (VArray (map (address_clause_by_test key) nested)))) /\
    (forall before after where_,
        (forall e, In e after ->
                   includes addressField (fst e) = false /\ fst e <> "OR") ->
        SqlUtil.handleConditions rangeField ListField addressField
          logicAndListField searchField
          (before ++ (key, VArray (map VObject nested)) :: after) =
        Return where_ ->
        obj_lookup where_ "OR" =
        Some (VArray (map (address_clause_by_test key) nested))) /\
    (forall o,
        In o nested -> address_shaped o ->
        address_clause_by_test key o = address_clause_as_specified key o).
Proof.
  intros rangeField ListField addressField logicAndListField searchField
    key nested Hkey Hobjs _.
  assert (Hentry : forall where_,
             SqlUtil.handle_entry rangeField ListField addressField
               logicAndListField searchField where_
               (key, VArray (map VObject nested)) =
             Return (obj_set where_ "OR"
                       (VArray (map (address_clause_by_test key) nested)))).
  { intros where_. unfold SqlUtil.handle_entry. rewrite Hkey.
    now rewrite (map_address_clause key nested Hobjs). }
  split; [exact Hentry|]. split.
  2:{ intros o Hin Hshape. symmetry.
      apply address_clause_on_address_shaped; [|assumption].
      rewrite Forall_forall in Hobjs. now apply Hobjs. }
  intros before after where_ Hafter Hrun.
  unfold SqlUtil.handleConditions in Hrun.
  rewrite fold_outcome_app in Hrun.
  destruct (fold_outcome
              (SqlUtil.handle_entry rangeField ListField addressField
                 logicAndListField searchField) before []) as [acc|];
    cbn [bind fold_outcome] in Hrun; [|discriminate].
  rewrite Hentry in Hrun. cbn [bind] in Hrun.
  rewrite (fold_keeps_other_keys _ _ _ _ _ "OR" after _ _) with (2 := Hrun).
  - apply obj_lookup_set_same.
  - intros e He. destruct (Hafter e He) as [Hna Hne]. now rewrite Hna.
Qed.

(** The OR list of the specification's example, a single nested object
    with a country. *)
Lemma address_field_fills_or_list_witness :
  obj_lookup
    [("OR", VArray [country_clause "location" (VString "US")])] "OR" =
  Some (VArray (map (address_clause_by_test "location")
                  [[("country", VString "US")]])).
Proof.
  refine (proj1 (proj2 (address_field_fills_or_list [] [] ["location"] [] []
                          "location" [[("country", VString "US")]]
                          eq_refl _ _))
            [] [] _ _ _).
  - repeat constructor. simpl. intuition.
  - repeat constructor.
  - intros e He. destruct He.
  - reflexivity.
Defined.

(** C2, as stated, fails on a nested object that has another key beside
    [country]: [country] is not the only key present, so the
    specification asks for a clause matching the whole object, and the
    code emits the clause on [country] alone. *)
Lemma address_clause_ignores_other_keys :
  address_clause_as_specified "location"
    [("country", VString "US"); ("zip", VString "94000")] =
  whole_object_clause "location"
    [("country", VString "US"); ("zip", VString "94000")] /\
  SqlUtil.handleConditions [] [] ["location"] [] []
    [("location",
      VArray [VObject [("country", VString "US"); ("zip", VString "94000")]])] =
  Return [("OR", VArray [country_clause "location" (VString "US")])].
Proof. split; reflexivity. Qed.

(** The example of the specification: one nested object with a country. *)
Example address_translation_example :
  SqlUtil.handleConditions [] [] ["location"] [] []
    [("location", VArray [VObject [("country", VString "US")]])] =
  Return
    [("OR",
      VArray
        [VObject
           [("location",
             VObject [("path", VArray [VString "country"]);
                      ("equals", VString "US")])]])].
Proof. reflexivity. Qed.

(** ** Pagination *)

Lemma js_or_default (v : jsval) (d : Z) :
  js_or v (VNumber (Fin d)) = default_when_falsy v d.
Proof. reflexivity. Qed.

Lemma default_when_falsy_int (z d : Z) :
  default_when_falsy (VNumber (Fin z)) d = VNumber (Fin (resolve_int z d)).
Proof.
  unfold default_when_falsy, resolve_int. simpl.
  now destruct (z =? 0).
Qed.


Lemma getPagination_run (rt : Runtime) (pageNumber pageSize : jsval)
  (p l : num) :
  ToNumber rt (default_when_falsy pageNumber 1) = Return p ->
  ToNumber rt (default_when_falsy pageSize 20) = Return l ->
  SqlUtil.getPagination rt pageNumber pageSize =
  Return [("take", default_when_falsy pageSize 20);
          ("skip", VNumber (num_mul (num_sub p (Fin 1)) l))].
Proof.
  intros Hp Hl. unfold SqlUtil.getPagination.
  rewrite !js_or_default, Hp, Hl. reflexivity.
Qed.



(** ** The paginated fetch *)

(** The fetch when nothing raises: one page query, one count query, and
    the record built from their answers. *)
Lemma fetch_run {S : Type} (rt : Runtime) (pageNumber pageSize : jsval)
  (conditions : obj) (collection : Collection S) (orderByField : jsval)
  (rangeField ListField addressField logicAndListField
     searchField : list string)
  (onDataProcess : option (jsval -> outcome jsval)) (w : world S)
  (pagination query : obj) (data result : jsval) (total size : num)
  (s1 s2 : S) :
  SqlUtil.getPagination rt pageNumber pageSize = Return pagination ->
  SqlUtil.handleConditions rangeField ListField addressField
    logicAndListField searchField conditions = Return query ->
  findMany collection
    (findMany_args query orderByField (obj_get pagination "take")
       (obj_get pagination "skip")) (store w) = (Return data, s1) ->
  count collection (count_args query) s1 = (Return total, s2) ->
  ToNumber rt pageSize = Return size ->
  SqlUtil.process onDataProcess data = Return result ->
  SqlUtil.fetchDataWithPagination rt pageNumber pageSize conditions
    collection orderByField rangeField ListField addressField
    logicAndListField searchField onDataProcess w =
  (Return (envelope result total (Math_ceil_div total size) pageNumber),
   {| store := s2;
      log := log w ++
             [CallFindMany
                (findMany_args query orderByField
                   (obj_get pagination "take") (obj_get pagination "skip"));
              CallCount (count_args query)] |}).
Proof.
  intros Hpage Hquery Hfind Hcount Hsize Hproc.
  unfold SqlUtil.fetchDataWithPagination, io_bind, lift, perform, ret.
  rewrite Hpage, Hquery.
  fold (findMany_args query orderByField (obj_get pagination "take")
          (obj_get pagination "skip")).
  fold (count_args query).
  rewrite Hfind. cbn [store log].
  rewrite Hcount, Hsize, Hproc. cbn [store log].
  now rewrite <- app_assoc.
Qed.

Lemma ceil_div_is_ceiling (t s : Z) :
  s <> 0 -> is_ceiling t s (- ((- t) / s)).
Proof.
  intros Hs. unfold is_ceiling.
  pose proof (Z.div_mod (- t) s Hs) as Hdm.
  split; intros Hsign.
  - pose proof (Z.mod_pos_bound (- t) s Hsign). nia.
  - pose proof (Z.mod_neg_bound (- t) s Hsign). nia.
Qed.

Lemma Math_ceil_div_int (t s : Z) :
  s <> 0 -> Math_ceil_div (Fin t) (Fin s) = Fin (- ((- t) / s)).
Proof.
  intros Hs. unfold Math_ceil_div.
  now apply Z.eqb_neq in Hs as ->.
Qed.

(** C4, as amended: for every total and every integer pageSize other
    than 0, a paginated fetch whose queries answer reports totalPages =
    ceil(totalCount / pageSize); for a pageSize > 0 this is the number of
    pages, and for a negative pageSize no validation error is raised: the
    fetch returns its record, with a totalPages that is the same rounded
    quotient. *)
Theorem fetch_totalPages_is_ceiling :
  forall (S : Type) (rt : Runtime) (pageNumber : jsval) (pageSize total : Z)
         (conditions : obj) (collection : Collection S)
         (orderByField : jsval)
         (rangeField ListField addressField logicAndListField
            searchField : list string)
         (onDataProcess : option (jsval -> outcome jsval)) (w : world S)
         (pagination query : obj) (data result : jsval) (s1 s2 : S),
    pageSize <> 0 ->
    SqlUtil.getPagination rt pageNumber (VNumber (Fin pageSize)) =
    Return pagination ->
    SqlUtil.handleConditions rangeField ListField addressField
      logicAndListField searchField conditions = Return query ->
    findMany collection
      (findMany_args query orderByField (obj_get pagination "take")
         (obj_get pagination "skip")) (store w) = (Return data, s1) ->
    count collection (count_args query) s1 = (Return (Fin total), s2) ->
    SqlUtil.process onDataProcess data = Return result ->
    exists totalPages : Z,
      is_ceiling total pageSize totalPages /\
      fst (SqlUtil.fetchDataWithPagination rt pageNumber
             (VNumber (Fin pageSize)) conditions collection orderByField
             rangeField ListField addressField logicAndListField
             searchField onDataProcess w) =
      Return (envelope result (Fin total) (Fin totalPages) pageNumber).
Proof.
  intros S rt pageNumber pageSize total conditions collection orderByField
    rangeField ListField addressField logicAndListField searchField
    onDataProcess w pagination query data result s1 s2
    Hsize Hpage Hquery Hfind Hcount Hproc.
  exists (- ((- total) / pageSize)). split.
  - now apply ceil_div_is_ceiling.
  - rewrite (fetch_run rt pageNumber (VNumber (Fin pageSize)) conditions
               collection orderByField rangeField ListField addressField
               logicAndListField searchField onDataProcess w pagination
               query data result (Fin total) (Fin pageSize) s1 s2
               Hpage Hquery Hfind Hcount eq_refl Hproc).
    cbn [fst]. now rewrite Math_ceil_div_int.
Qed.

(** The example of the specification: 95 records in pages of 20. *)
Lemma fetch_totalPages_is_ceiling_witness :
  exists totalPages : Z,
    is_ceiling 95 20 totalPages /\
    fst (SqlUtil.fetchDataWithPagination plain_runtime (VNumber (Fin 1))
           (VNumber (Fin 20)) [] (fixed_collection (VArray []) 95)
           VUndefined [] [] [] [] [] None fresh_world) =
    Return (envelope (VArray []) (Fin 95) (Fin totalPages) (VNumber (Fin 1))).
Proof.
  refine (fetch_totalPages_is_ceiling unit plain_runtime (VNumber (Fin 1))
            20 95 [] (fixed_collection (VArray []) 95) VUndefined
            [] [] [] [] [] None fresh_world
            [("take", VNumber (Fin 20)); ("skip", VNumber (Fin 0))] []
            (VArray []) (VArray []) tt tt _ _ _ _ _ _);
    try reflexivity; lia.
Defined.

Example fetch_95_records_in_pages_of_20 :
  fst (SqlUtil.fetchDataWithPagination plain_runtime (VNumber (Fin 1))
         (VNumber (Fin 20)) [] (fixed_collection (VArray []) 95)
         VUndefined [] [] [] [] [] None fresh_world) =
  Return (envelope (VArray []) (Fin 95) (Fin 5) (VNumber (Fin 1))).
Proof. reflexivity. Qed.

(** C4, as stated, fails on a negative pageSize: the fetch raises nothing
    and returns its record, here with -19 pages for 95 records in pages of
    -5. *)
Lemma fetch_negative_pageSize_returns :
  SqlUtil.fetchDataWithPagination plain_runtime (VNumber (Fin 1))
    (VNumber (Fin (-5))) [] (fixed_collection (VArray []) 95)
    VUndefined [] [] [] [] [] None fresh_world =
  (Return (envelope (VArray []) (Fin 95) (Fin (-19)) (VNumber (Fin 1))),
   {| store := tt;
      log := [CallFindMany
                (findMany_args [] VUndefined (VNumber (Fin (-5)))
                   (VNumber (Fin 0)));
              CallCount (count_args [])] |}).
Proof. reflexivity. Qed.

(** No runtime makes a difference to that answer. *)
Lemma negative_pageSize_under_every_runtime (rt : Runtime) :
  fst (SqlUtil.fetchDataWithPagination rt (VNumber (Fin 1))
         (VNumber (Fin (-5))) [] (fixed_collection (VArray []) 95)
         VUndefined [] [] [] [] [] None fresh_world) =
  Return (envelope (VArray []) (Fin 95) (Fin (-19)) (VNumber (Fin 1))).
Proof. reflexivity. Qed.

(** C10, as amended: for every call to the paginated fetch with a falsy
    pageNumber and a page size that resolves to a finite number, the page
    query is made with offset 0, so the records are those of page 1, and
    the currentPage of the returned record is the pageNumber as the caller
    gave it, which is not the defaulted 1. *)
Theorem fetch_falsy_pageNumber :
  forall (S : Type) (rt : Runtime) (pageNumber pageSize : jsval)
         (conditions : obj) (collection : Collection S)
         (orderByField : jsval)
         (rangeField ListField addressField logicAndListField
            searchField : list string)
         (onDataProcess : option (jsval -> outcome jsval)) (w : world S)
         (limit : Z) (query : obj) (data result : jsval) (total size : num)
         (s1 s2 : S),
    truthy pageNumber = false ->
    ToNumber rt (default_when_falsy pageSize 20) = Return (Fin limit) ->
    SqlUtil.handleConditions rangeField ListField addressField
      logicAndListField searchField conditions = Return query ->
    findMany collection
      (findMany_args query orderByField (default_when_falsy pageSize 20)
         (VNumber (Fin 0))) (store w) = (Return data, s1) ->
    count collection (count_args query) s1 = (Return total, s2) ->
    ToNumber rt pageSize = Return size ->
    SqlUtil.process onDataProcess data = Return result ->
    SqlUtil.fetchDataWithPagination rt pageNumber pageSize conditions
      collection orderByField rangeField ListField addressField
      logicAndListField searchField onDataProcess w =
    (Return (envelope result total (Math_ceil_div total size) pageNumber),
     {| store := s2;
        log := log w ++
               [CallFindMany
                  (findMany_args query orderByField
                     (default_when_falsy pageSize 20) (VNumber (Fin 0)));
                CallCount (count_args query)] |}) /\
    obj_get
      (own_entries
         (envelope result total (Math_ceil_div total size) pageNumber))
      "currentPage" = pageNumber /\
    pageNumber <> VNumber (Fin 1).
Proof.
  intros S rt pageNumber pageSize conditions collection orderByField
    rangeField ListField addressField logicAndListField searchField
    onDataProcess w limit query data result total size s1 s2
    Hfalsy Hlimit Hquery Hfind Hcount Hsize Hproc.
  assert (Hpage : SqlUtil.getPagination rt pageNumber pageSize =
                  Return [("take", default_when_falsy pageSize 20);
                          ("skip", VNumber (Fin 0))]).
  { rewrite (getPagination_run rt pageNumber pageSize (Fin 1) (Fin limit));
      [reflexivity| |assumption].
    unfold default_when_falsy. now rewrite Hfalsy. }
  split; [|split].
  - exact (fetch_run rt pageNumber pageSize conditions collection
             orderByField rangeField ListField addressField
             logicAndListField searchField onDataProcess w _ query data
             result total size s1 s2 Hpage Hquery Hfind Hcount Hsize Hproc).
  - reflexivity.
  - intros ->. discriminate Hfalsy.
Qed.

(** A fetch with page number 0: page 1 is queried and 0 is reported. *)
Lemma fetch_falsy_pageNumber_witness :
  SqlUtil.fetchDataWithPagination plain_runtime (VNumber (Fin 0))
    (VNumber (Fin 10)) [] (fixed_collection (VArray [VString "row"]) 95)
    VUndefined [] [] [] [] [] None fresh_world =
  (Return (envelope (VArray [VString "row"]) (Fin 95) (Fin 10)
             (VNumber (Fin 0))),
   {| store := tt;
      log := [CallFindMany
                (findMany_args [] VUndefined (VNumber (Fin 10))
                   (VNumber (Fin 0)));
              CallCount (count_args [])] |}).
Proof.
  refine (proj1 (fetch_falsy_pageNumber unit plain_runtime (VNumber (Fin 0))
                   (VNumber (Fin 10)) []
                   (fixed_collection (VArray [VString "row"]) 95) VUndefined
                   [] [] [] [] [] None fresh_world 10 []
                   (VArray [VString "row"]) (VArray [VString "row"])
                   (Fin 95) (Fin 10) tt tt _ _ _ _ _ _ _));
    reflexivity.
Defined.

(** C10, as stated, fails on a page size that is not finite: with page
    number 0 and page size Infinity the offset of the page query is
    (1 - 1) * Infinity, which is not a number, not 0. *)
Lemma fetch_falsy_pageNumber_infinite_pageSize :
  truthy (VNumber (Fin 0)) = false /\
  SqlUtil.getPagination plain_runtime (VNumber (Fin 0)) (VNumber PInf) =
  Return [("take", VNumber PInf); ("skip", VNumber NaN)] /\
  SqlUtil.fetchDataWithPagination plain_runtime (VNumber (Fin 0))
    (VNumber PInf) [] (fixed_collection (VArray [VString "row"]) 95)
    VUndefined [] [] [] [] [] None fresh_world =
  (Return (envelope (VArray [VString "row"]) (Fin 95) (Fin 0)
             (VNumber (Fin 0))),
   {| store := tt;
      log := [CallFindMany
                (findMany_args [] VUndefined (VNumber PInf) (VNumber NaN));
              CallCount (count_args [])] |}).
Proof. repeat split. Qed.

(** ** Range fields whose value is not a pair *)

Lemma handleConditions_plain_returns
  (rangeField ListField addressField logicAndListField
     searchField : list string) (conditions acc : obj) :
  (forall e, In e conditions -> includes addressField (fst e) = false) ->
  exists where_,
    fold_outcome
      (SqlUtil.handle_entry rangeField ListField addressField
         logicAndListField searchField) conditions acc = Return where_.
Proof.
  revert acc. induction conditions as [|[key value] l IH]; intros acc Hna.
  - now exists acc.
  - cbn [fold_outcome].
    destruct (handle_entry_plain rangeField ListField addressField
                logicAndListField searchField acc key value)
      as (c & _ & _ & ->).
    + apply (Hna (key, value)). now left.
    + cbn [bind]. apply IH. intros e He. apply Hna. now right.
Qed.

(** C5, as amended: for every range-classified key that is not an address
    field, whatever its value, translation does not fail: a list that is
    not a pair is indexed at positions 0 and 1 all the same (a missing
    position reads as undefined), and a value that is not a list is
    translated by the scalar rules; a condition map without address fields
    is always translated. *)
Theorem range_field_never_fails :
  forall rangeField ListField addressField logicAndListField searchField,
    (forall where_ key value,
        includes addressField key = false ->
        includes rangeField key = true ->
        SqlUtil.handle_entry rangeField ListField addressField
          logicAndListField searchField where_ (key, value) =
        Return (obj_set where_ key
                  (range_field_clause searchField key value))) /\
    (forall conditions,
        (forall e, In e conditions ->
                   includes addressField (fst e) = false) ->
        exists where_,
          SqlUtil.handleConditions rangeField ListField addressField
            logicAndListField searchField conditions = Return where_).
Proof.
  intros rangeField ListField addressField logicAndListField searchField.
  split.
  - intros where_ key value Hna Hr.
    unfold SqlUtil.handle_entry, range_field_clause. rewrite Hna.
    destruct value; cbn [isArray at_index]; rewrite ?Hr;
      try reflexivity; now destruct (includes searchField key).
  - intros conditions Hna. now apply handleConditions_plain_returns.
Qed.

(** A range field holding a one-element list. *)
Lemma range_field_never_fails_witness :
  SqlUtil.handle_entry ["createdAt"] [] [] [] [] []
    ("createdAt", VArray [VString "2024-01-01"]) =
  Return [("createdAt",
           VObject [("gte", VString "2024-01-01"); ("lte", VUndefined)])].
Proof.
  exact (proj1 (range_field_never_fails ["createdAt"] [] [] [] [])
           [] "createdAt" (VArray [VString "2024-01-01"]) eq_refl eq_refl).
Defined.

(** C5, as stated, fails on a range field with a one-element list: the
    translation returns, with an undefined upper bound. *)
Lemma range_field_one_element_returns :
  SqlUtil.handleConditions ["r"] [] [] [] [] [("r", VArray [VNumber (Fin 1)])] =
  Return [("r", VObject [("gte", VNumber (Fin 1)); ("lte", VUndefined)])].
Proof. reflexivity. Qed.

(** ** The date normalizer *)

Section DateTime.
Context (rt : Runtime).

Lemma toSQLDateTime_string (s : string) :
  SqlUtil.toSQLDateTime rt (VString s) =
  Return (if isNaN (Date_parse rt s) then VNull
          else VDate (Date_parse rt s)).
Proof.
  unfold SqlUtil.toSQLDateTime.
  rewrite Date_parse_time_value.
  now destruct (isNaN (Date_parse rt s)).
Qed.

Lemma toSQLDateTime_seconds (props : obj) (seconds : jsval) :
  obj_lookup props "_seconds" = Some seconds ->
  SqlUtil.toSQLDateTime rt (VObject props) =
  (n <- ToNumber rt seconds ;;
   Return (VDate (TimeClip (num_mul n (Fin 1000))))).
Proof.
  intros Hs. unfold SqlUtil.toSQLDateTime, SqlUtil.is_object_with.
  cbn [own_entries]. unfold obj_has, obj_get. now rewrite Hs.
Qed.

Lemma toSQLDateTime_other (input : jsval) :
  (forall s, input <> VString s) ->
  SqlUtil.is_object_with input "_seconds" = false ->
  SqlUtil.toSQLDateTime rt input = Return VNull.
Proof.
  intros Hstr Hobj. unfold SqlUtil.toSQLDateTime. rewrite Hobj.
  destruct input; try reflexivity.
  now destruct (Hstr s).
Qed.

Lemma TimeClip_seconds (z : Z) :
  Z.abs z <= 8640000000000 ->
  TimeClip (num_mul (Fin z) (Fin 1000)) = Fin (z * 1000).
Proof.
  intros Hz. cbn [num_mul TimeClip]. unfold max_time.
  destruct (Z.leb_spec (Z.abs (z * 1000)) 8640000000000000); [reflexivity|].
  lia.
Qed.

End DateTime.

(** C7, as amended: for every input, the date-time normalizer returns the
    parsed instant when the input is a string that parses as a date and
    null for an unparseable string; for an object that has a [_seconds]
    property, whatever its value, it returns [new Date(_seconds * 1000)]:
    the instant [_seconds] seconds after the epoch when [_seconds] is an
    integer within the range of dates (100 gives 100 s after the epoch),
    and never null; it returns null for every other input; and it raises
    only if the conversion of an array or an object under [_seconds] to a
    number raises. *)
Theorem toSQLDateTime_cases :
  forall (rt : Runtime),
    (forall s,
        SqlUtil.toSQLDateTime rt (VString s) =
        Return (if isNaN (Date_parse rt s) then VNull
                else VDate (Date_parse rt s))) /\
    (forall props seconds,
        obj_lookup props "_seconds" = Some seconds ->
        SqlUtil.toSQLDateTime rt (VObject props) =
        (n <- ToNumber rt seconds ;;
         Return (VDate (TimeClip (num_mul n (Fin 1000)))))) /\
    (forall props z,
        obj_lookup props "_seconds" = Some (VNumber (Fin z)) ->
        Z.abs z <= 8640000000000 ->
        SqlUtil.toSQLDateTime rt (VObject props) =
        Return (VDate (Fin (z * 1000)))) /\
    (forall props seconds,
        obj_lookup props "_seconds" = Some seconds ->
        converts_quietly seconds = true ->
        exists t, SqlUtil.toSQLDateTime rt (VObject props) =
                  Return (VDate t)) /\
    (forall input,
        (forall s, input <> VString s) ->
        SqlUtil.is_object_with input "_seconds" = false ->
        SqlUtil.toSQLDateTime rt input = Return VNull).
Proof.
  intros rt. split; [|split; [|split; [|split]]].
  - apply toSQLDateTime_string.
  - apply toSQLDateTime_seconds.
  - intros props z Hs Hz.
    rewrite (toSQLDateTime_seconds rt props _ Hs). cbn [ToNumber bind].
    now rewrite TimeClip_seconds.
  - intros props seconds Hs Hq.
    rewrite (toSQLDateTime_seconds rt props _ Hs).
    destruct seconds; try discriminate Hq; cbn [ToNumber bind];
      eexists; reflexivity.
  - apply toSQLDateTime_other.
Qed.

(** The example of the specification: 100 seconds after the epoch. *)
Lemma toSQLDateTime_cases_witness :
  SqlUtil.toSQLDateTime plain_runtime
    (VObject [("_seconds", VNumber (Fin 100))]) =
  Return (VDate (Fin 100000)).
Proof.
  refine (proj1 (proj2 (proj2 (toSQLDateTime_cases plain_runtime)))
            [("_seconds", VNumber (Fin 100))] 100 eq_refl _).
  simpl. lia.
Defined.

(** C7, as stated, fails on an object whose [_seconds] is not a number:
    with a null [_seconds] the normalizer returns the epoch, not null. *)
Lemma toSQLDateTime_null_seconds_is_epoch :
  SqlUtil.toSQLDateTime plain_runtime (VObject [("_seconds", VNull)]) =
  Return (VDate (Fin 0)).
Proof. reflexivity. Qed.

(** No runtime makes a difference to that answer. *)
Lemma null_seconds_under_every_runtime (rt : Runtime) :
  SqlUtil.toSQLDateTime rt (VObject [("_seconds", VNull)]) =
  Return (VDate (Fin 0)).
Proof. reflexivity. Qed.

(** ** The field projector *)

(** C6 fails on the code: a key of [dateFields] that the loop has just
    removed, because it is not in [allFields] or because its value is
    null, is written again with the normalizer's answer to [undefined],
    which is null.  Here [x] is not allowed and comes back as null. *)
Theorem transformData_restores_removed_date_key :
  SqlUtil.transformData plain_runtime (VObject [("x", VNumber (Fin 1))])
    (Some {| SqlUtil.dateFields := Some ["x"];
             SqlUtil.allFields := Some [] |}) =
  Return [("x", VNull)] /\
  SqlUtil.transformData plain_runtime (VObject [("d", VNull)])
    (Some {| SqlUtil.dateFields := Some ["d"];
             SqlUtil.allFields := Some ["d"] |}) =
  Return [("d", VNull)].
Proof. split; reflexivity. Qed.

(** *** The projector when no date field is involved *)

Lemma obj_delete_absent (o : obj) (k : string) :
  ~ In k (keys o) -> obj_delete o k = o.
Proof.
  induction o as [|[k' v'] o IH]; simpl; intros Hnin; [reflexivity|].
  destruct (String.eqb_spec k' k) as [->|_]; simpl.
  - exfalso. apply Hnin. now left.
  - f_equal. apply IH. intros Hin. apply Hnin. now right.
Qed.

Lemma obj_delete_app (o1 o2 : obj) (k : string) :
  obj_delete (o1 ++ o2) k = obj_delete o1 k ++ obj_delete o2 k.
Proof. apply filter_app. Qed.

Lemma obj_lookup_app_absent (o1 o2 : obj) (k : string) :
  ~ In k (keys o1) -> obj_lookup (o1 ++ o2) k = obj_lookup o2 k.
Proof.
  induction o1 as [|[k' v'] o1 IH]; simpl; intros Hnin; [reflexivity|].
  destruct (String.eqb_spec k' k) as [->|_].
  - exfalso. apply Hnin. now left.
  - apply IH. intros Hin. apply Hnin. now right.
Qed.

Lemma obj_lookup_absent (o : obj) (k : string) :
  ~ In k (keys o) -> obj_lookup o k = None.
Proof.
  induction o as [|[k' v'] o IH]; simpl; intros Hnin; [reflexivity|].
  destruct (String.eqb_spec k' k) as [->|_].
  - exfalso. apply Hnin. now left.
  - apply IH. intros Hin. apply Hnin. now right.
Qed.

Lemma keys_projection_incl (allFields : list string) (o : obj) (k : string) :
  In k (keys (projection allFields o)) -> In k (keys o).
Proof.
  unfold keys, projection. rewrite !in_map_iff.
  intros [kv [Hk Hin]]. apply filter_In in Hin as [Hin _]. now exists kv.
Qed.

Section Projector.
Context (rt : Runtime) (dates allowed : list string).

(** One round of the loop on a key that is no date field: the entry stays
    when it is allowed and holds a value, and goes otherwise. *)
Lemma transform_key_plain (before after : obj) (k : string) (v : jsval) :
  ~ In k (keys before) -> ~ In k (keys after) ->
  includes dates k = false ->
  SqlUtil.transform_key rt dates allowed (before ++ (k, v) :: after) k =
  Return (before ++ projection allowed [(k, v)] ++ after).
Proof.
  intros Hb Ha Hd. unfold SqlUtil.transform_key. rewrite Hd.
  assert (Hdel : obj_delete (before ++ (k, v) :: after) k = before ++ after).
  { rewrite obj_delete_app. simpl. rewrite String.eqb_refl. simpl.
    now rewrite !obj_delete_absent. }
  assert (Hgone : obj_get (before ++ after) k = VUndefined).
  { unfold obj_get. rewrite obj_lookup_app_absent by assumption.
    now rewrite obj_lookup_absent. }
  assert (Hget : obj_get (before ++ (k, v) :: after) k = v).
  { unfold obj_get. rewrite obj_lookup_app_absent by assumption.
    simpl. now rewrite String.eqb_refl. }
  unfold projection. simpl.
  destruct (includes allowed k); simpl.
  - rewrite Hget. destruct (is_nullish v); simpl; [now rewrite Hdel|].
    reflexivity.
  - rewrite Hdel, Hgone. simpl.
    rewrite obj_delete_app, !obj_delete_absent by assumption. reflexivity.
Qed.

Lemma transformData_loop (todo done : obj) :
  NoDup (keys (done ++ todo)) ->
  (forall k, In k (keys todo) -> includes dates k = false) ->
  fold_outcome (SqlUtil.transform_key rt dates allowed) (keys todo)
    (projection allowed done ++ todo) =
  Return (projection allowed (done ++ todo)).
Proof.
  revert done. induction todo as [|[k v] todo IH]; intros done Hnd Hdates.
  - simpl. now rewrite !app_nil_r.
  - cbn [keys map fst fold_outcome].
    assert (Hsplit : NoDup (keys done ++ k :: keys todo)).
    { unfold keys in *. now rewrite map_app in Hnd. }
    pose proof (NoDup_remove_2 _ _ _ Hsplit) as Hnin.
    rewrite transform_key_plain.
    + cbn [bind]. unfold keys in IH.
      replace (projection allowed done ++ projection allowed [(k, v)] ++ todo)
        with (projection allowed (done ++ [(k, v)]) ++ todo)
        by (unfold projection; now rewrite filter_app, <- app_assoc).
      rewrite IH.
      * now rewrite <- app_assoc.
      * now rewrite <- app_assoc.
      * intros k' Hk'. apply Hdates. now right.
    + intros Hin. apply keys_projection_incl in Hin.
      apply Hnin. apply in_or_app. now left.
    + intros Hin. apply Hnin. apply in_or_app. now right.
    + apply Hdates. now left.
Qed.

(** Without date fields among the keys of the input, the projector
    returns the entries whose key is allowed and whose value is neither
    null nor undefined, in their order. *)
Lemma transformData_without_dates (o : obj) :
  NoDup (keys o) ->
  (forall k, In k (keys o) -> includes dates k = false) ->
  SqlUtil.transformData rt (VObject o)
    (Some {| SqlUtil.dateFields := Some dates;
             SqlUtil.allFields := Some allowed |}) =
  Return (projection allowed o).
Proof.
  intros Hnd Hdates. unfold SqlUtil.transformData. simpl.
  exact (transformData_loop o [] Hnd Hdates).
Qed.

End Projector.

(** ** Mutating operations *)

Section MutationRuns.
Context {S : Type} (prisma : Prisma S) (collection : Collection S).

Lemma guarded_run (c : call) (f : S -> outcome jsval * S)
  (on_success : jsval -> jsval) (label : option string) (on_failure : jsval)
  (w : world S) :
  guarded prisma c f on_success label on_failure w =
  let (r, s1) := f (store w) in
  let (d, s2) := disconnect prisma s1 in
  (match d with
   | Throw e => Throw e
   | Return _ =>
       match r with
       | Return v => Return (on_success v)
       | Throw _ => Return on_failure
       end
   end,
   {| store := s2;
      log := log w ++ [c] ++
             match r with
             | Return _ => []
             | Throw e => [CallConsoleError label e]
             end ++ [CallDisconnect] |}).
Proof.
  unfold guarded, finally, try_catch, io_bind, perform, console_error, ret.
  destruct (f (store w)) as [[v|e] s1]; cbn [store log];
    destruct (disconnect prisma s1) as [[u|e'] s2];
    cbn [app]; rewrite <- ?app_assoc; reflexivity.
Qed.

Lemma createData_guarded (data : jsval) :
  SqlUtil.createData prisma collection data =
  guarded prisma (CallCreate (VObject [("data", data)]))
    (create collection (VObject [("data", data)]))
    (fun newData => VObject [("success", VBool true); ("data", newData)])
    (Some "Error creating data:")
    (VObject [("success", VBool false);
              ("error", VString "Error creating data")]).
Proof. reflexivity. Qed.

Lemma batchCreateData_guarded (listData : jsval) :
  SqlUtil.batchCreateData prisma collection listData =
  guarded prisma (CallCreateMany (VObject [("data", listData)]))
    (createMany collection (VObject [("data", listData)]))
    (fun _ => VObject [("success", VBool true)])
    (Some "Error creating users:")
    (VObject [("success", VBool false);
              ("error", VString "Error creating data")]).
Proof. reflexivity. Qed.

Lemma deleteData_guarded (id : jsval) :
  SqlUtil.deleteData prisma collection id =
  guarded prisma (CallDelete (VObject [("where", VObject [("id", id)])]))
    (delete collection (VObject [("where", VObject [("id", id)])]))
    (fun _ => VObject [("success", VBool true)])
    (Some "Error deleting data:")
    (VObject [("success", VBool false);
              ("error", VString "Error deleting data")]).
Proof. reflexivity. Qed.

Lemma updateFields_guarded (dataToUpdate id : jsval) :
  SqlUtil.updateFields prisma collection dataToUpdate id =
  guarded prisma
    (CallUpdateMany
       (VObject [("where", VObject [("id", id)]); ("data", dataToUpdate)]))
    (updateMany collection
       (VObject [("where", VObject [("id", id)]); ("data", dataToUpdate)]))
    (fun _ => VObject [("success", VBool true)])
    None
    (VObject [("success", VBool false)]).
Proof. reflexivity. Qed.

Lemma disconnects_app (l1 l2 : list call) :
  disconnects (l1 ++ l2) = (disconnects l1 + disconnects l2)%nat.
Proof. unfold disconnects. now rewrite filter_app, length_app. Qed.

(** Whatever the store call and the release do, a guarded operation
    releases the connection once, after everything else, provided the
    store call is not itself the release. *)
Lemma guarded_disconnects_once (c : call) (f : S -> outcome jsval * S)
  (on_success : jsval -> jsval) (label : option string) (on_failure : jsval)
  (w : world S) :
  c <> CallDisconnect ->
  exists calls,
    log (snd (guarded prisma c f on_success label on_failure w)) =
    log w ++ calls ++ [CallDisconnect] /\
    disconnects calls = 0%nat.
Proof.
  intros Hc. rewrite guarded_run.
  destruct (f (store w)) as [r s1].
  destruct (disconnect prisma s1) as [d s2]. cbn [snd log].
  exists ([c] ++ match r with
                 | Return _ => []
                 | Throw e => [CallConsoleError label e]
                 end).
  split.
  - now rewrite <- !app_assoc.
  - destruct r; destruct c; try reflexivity; now destruct Hc.
Qed.

End MutationRuns.

Section MutationOutcomes.
Context {S : Type} (prisma : Prisma S) (collection : Collection S).

(** X17: each of the four operations releases the connection once, as its
    last call, whatever the store call and the release answer. *)
Lemma mutations_disconnect_once (a b : jsval) (w : world S) :
  (exists calls,
      log (snd (SqlUtil.createData prisma collection a w)) =
      log w ++ calls ++ [CallDisconnect] /\ disconnects calls = 0%nat) /\
  (exists calls,
      log (snd (SqlUtil.batchCreateData prisma collection a w)) =
      log w ++ calls ++ [CallDisconnect] /\ disconnects calls = 0%nat) /\
  (exists calls,
      log (snd (SqlUtil.deleteData prisma collection a w)) =
      log w ++ calls ++ [CallDisconnect] /\ disconnects calls = 0%nat) /\
  (exists calls,
      log (snd (SqlUtil.updateFields prisma collection a b w)) =
      log w ++ calls ++ [CallDisconnect] /\ disconnects calls = 0%nat).
Proof.
  rewrite createData_guarded, batchCreateData_guarded, deleteData_guarded,
    updateFields_guarded.
  repeat split; apply guarded_disconnects_once; discriminate.
Qed.

(** X18: a store failure of [createData], [batchCreateData] or
    [deleteData], followed by a release that succeeds, is not raised: it is
    returned as a record with a message. *)
Lemma mutations_failure_record (a : jsval) (w : world S) (e : exn)
  (s1 s2 : S) (u : jsval) :
  disconnect prisma s1 = (Return u, s2) ->
  (create collection (VObject [("data", a)]) (store w) = (Throw e, s1) ->
   fst (SqlUtil.createData prisma collection a w) =
   Return (VObject [("success", VBool false);
                    ("error", VString "Error creating data")])) /\
  (createMany collection (VObject [("data", a)]) (store w) = (Throw e, s1) ->
   fst (SqlUtil.batchCreateData prisma collection a w) =
   Return (VObject [("success", VBool false);
                    ("error", VString "Error creating data")])) /\
  (delete collection (VObject [("where", VObject [("id", a)])]) (store w) =
   (Throw e, s1) ->
   fst (SqlUtil.deleteData prisma collection a w) =
   Return (VObject [("success", VBool false);
                    ("error", VString "Error deleting data")])).
Proof.
  intros Hd.
  rewrite createData_guarded, batchCreateData_guarded, deleteData_guarded.
  repeat split; intros Hf; rewrite guarded_run, Hf, Hd; reflexivity.
Qed.

End MutationOutcomes.

(** C8 fails on the code for [updateFields]: when the store call fails and
    the release succeeds, the record it returns is [{success: false}], with
    no [error] field, where [createData], [batchCreateData] and
    [deleteData] return [{success: false, error: <message>}]; the release
    runs once. *)
Theorem updateFields_failure_has_no_error :
  SqlUtil.updateFields quiet_prisma (failing_collection (VString "down"))
    (VObject [("name", VString "n")]) (VNumber (Fin 7)) fresh_world =
  (Return (VObject [("success", VBool false)]),
   {| store := tt;
      log := [CallUpdateMany
                (VObject [("where", VObject [("id", VNumber (Fin 7))]);
                          ("data", VObject [("name", VString "n")])]);
              CallConsoleError None (Rejected (VString "down"));
              CallDisconnect] |}) /\
  obj_has [("success", VBool false)] "error" = false /\
  fst (SqlUtil.deleteData quiet_prisma (failing_collection (VString "down"))
         (VNumber (Fin 7)) fresh_world) =
  Return (VObject [("success", VBool false);
                   ("error", VString "Error deleting data")]).
Proof. repeat split. Qed.

(** ** The two versions of the condition translator *)

Lemma index_key_inj (i j : nat) : index_key i = index_key j -> i = j.
Proof.
  unfold index_key. intros H.
  apply (f_equal NilEmpty.uint_of_string) in H.
  rewrite !NilEmpty.usu in H. injection H as H.
  apply (f_equal Nat.of_uint) in H.
  now rewrite !Unsigned.of_to in H.
Qed.

Lemma index_key_not_length (i : nat) : (index_key i =? "length")%string = false.
Proof.
  destruct (String.eqb_spec (index_key i) "length") as [E|]; [|reflexivity].
  pose proof (NilEmpty.usu (Nat.to_uint i)) as H.
  fold (index_key i) in H. rewrite E in H. discriminate H.
Qed.

Lemma obj_lookup_indexed (l : list jsval) (j i : nat) :
  obj_lookup (indexed_from j l) (index_key (j + i)) = nth_error l i.
Proof.
  revert j i. induction l as [|v l IH]; intros j i; simpl.
  - now destruct i.
  - destruct i as [|i].
    + now rewrite Nat.add_0_r, String.eqb_refl.
    + destruct (String.eqb_spec (index_key j) (index_key (j + S i))) as [E|_].
      * apply index_key_inj in E. lia.
      * replace (j + S i)%nat with (S j + i)%nat by lia. apply IH.
Qed.

Lemma length_indexed_from (l : list jsval) (j : nat) :
  List.length (indexed_from j l) = List.length l.
Proof. revert j. induction l; intros j; simpl; [|rewrite IHl]; reflexivity. Qed.

Lemma get_prop_array_length (l : list jsval) :
  get_prop (VArray l) "length" =
  Return (VNumber (Fin (Z.of_nat (List.length l)))).
Proof. reflexivity. Qed.

Lemma get_prop_array_index (l : list jsval) (i : nat) :
  get_prop (VArray l) (index_key i) = Return (nth i l VUndefined).
Proof.
  unfold get_prop. rewrite index_key_not_length. cbn [own_entries].
  unfold obj_get.
  pose proof (obj_lookup_indexed l 0 i) as H. cbn [Nat.add] in H.
  rewrite H. clear H.
  revert i. induction l as [|v l IH]; intros [|i]; simpl; try reflexivity.
  apply IH.
Qed.

Lemma get_prop_country_only (p : jsval) :
  country_only p = true ->
  get_prop p "country" = Return (country_of p) /\
  get_prop p "province" = Return (obj_get (own_entries p) "province") /\
  get_prop p "city" = Return (obj_get (own_entries p) "city") /\
  truthy (country_of p) = true /\
  truthy (obj_get (own_entries p) "province") = false /\
  truthy (obj_get (own_entries p) "city") = false.
Proof.
  unfold country_only. intros H.
  apply andb_prop in H as [H Hcity].
  apply andb_prop in H as [H Hprov].
  apply andb_prop in H as [Hnn Hcountry].
  apply negb_true_iff in Hcity, Hprov, Hnn.
  repeat split; try assumption;
    destruct p; try discriminate Hnn; reflexivity.
Qed.

(** On such a nested object the extended version emits the country
    clause. *)
Lemma address_clause_country_only (key : string) (p : jsval) :
  country_only p = true ->
  SqlUtil.address_clause key p = Return (country_clause key (country_of p)).
Proof.
  intros H.
  destruct (get_prop_country_only p H) as (Hc & Hp & Hci & Tc & Tp & Tci).
  unfold SqlUtil.address_clause, SqlUtil.removeNullValues.
  assert (Hnn : is_nullish p = false).
  { unfold country_only in H. destruct (is_nullish p); [discriminate H|].
    reflexivity. }
  rewrite Hnn. cbn [bind].
  unfold SqlUtil.and_then, SqlUtil.is_truthy, SqlUtil.is_falsy.
  rewrite Hc, Hp, Hci. cbn [bind]. rewrite Tc, Tp, Tci. reflexivity.
Qed.

Lemma map_address_clause_country_only (key : string) (l : list jsval) :
  Forall (fun p => country_only p = true) l ->
  map_outcome (SqlUtil.address_clause key) l =
  Return (map (fun p => country_clause key (country_of p)) l).
Proof.
  induction 1 as [|p l Hp _ IH]; simpl.
  - reflexivity.
  - now rewrite (address_clause_country_only key p Hp), IH.
Qed.

Section SimplerVersion.
Context (rt : Runtime).

(** On such a nested object the simpler version pushes the country clause
    and nothing else. *)
Lemma push_fields_country_only (key : string) (p : jsval)
  (acc : list jsval) :
  country_only p = true ->
  (f1 <- Part000.push_field key "city" p acc ;;
   f2 <- Part000.push_field key "country" p f1 ;;
   Part000.push_field key "province" p f2) =
  Return (acc ++ [country_clause key (country_of p)]).
Proof.
  intros H.
  destruct (get_prop_country_only p H) as (Hc & Hp & Hci & Tc & Tp & Tci).
  unfold Part000.push_field.
  rewrite Hci. cbn [bind]. rewrite Tci. cbn [bind].
  rewrite Hc. cbn [bind]. rewrite Tc. cbn [bind].
  rewrite Hp. cbn [bind]. rewrite Tp. reflexivity.
Qed.

(** The loop of the simpler version over a list of such objects, from the
    index [length done] on. *)
Lemma address_loop_country_only (key : string) (todo done : list jsval)
  (acc : list jsval) (fuel : nat) :
  (List.length todo < fuel)%nat ->
  Forall (fun p => country_only p = true) todo ->
  Part000.address_loop rt fuel key (VArray (done ++ todo))
    (List.length done) acc =
  Return (acc ++ map (fun p => country_clause key (country_of p)) todo).
Proof.
  revert done acc fuel.
  induction todo as [|p todo IH]; intros done acc fuel Hfuel Hall;
    (destruct fuel as [|fuel]; [simpl in Hfuel; lia|]);
    cbn [Part000.address_loop]; rewrite get_prop_array_length;
    cbn [bind ToNumber num_ltb].
  - rewrite app_nil_r, Z.ltb_irrefl. cbn [map]. now rewrite app_nil_r.
  - inversion Hall as [|? ? Hp Hall']; subst.
    replace (Z.of_nat (List.length done) <?
             Z.of_nat (List.length (done ++ p :: todo))) with true
      by (symmetry; apply Z.ltb_lt; rewrite length_app; simpl; lia).
    rewrite get_prop_array_index.
    rewrite nth_middle. cbn [bind].
    pose proof (push_fields_country_only key p acc Hp) as Hpush.
    destruct (Part000.push_field key "city" p acc) as [f1|];
      cbn [bind] in Hpush |- *; [|discriminate Hpush].
    destruct (Part000.push_field key "country" p f1) as [f2|];
      cbn [bind] in Hpush |- *; [|discriminate Hpush].
    rewrite Hpush. cbn [bind].
    replace (done ++ p :: todo) with ((done ++ [p]) ++ todo)
      by (now rewrite <- app_assoc).
    replace (S (List.length done)) with (List.length (done ++ [p]))
      by (rewrite length_app; simpl; lia).
    rewrite IH; [|simpl in Hfuel; lia|assumption].
    cbn [map]. now rewrite <- app_assoc.
Qed.

Lemma handle_entry_versions_agree
  (rangeField ListField addressField : list string) (where_ : obj)
  (key : string) (value : jsval) :
  (includes addressField key = true ->
   exists nested, value = VArray nested /\
                  Forall (fun p => country_only p = true) nested) ->
  Part000.handle_entry rt rangeField ListField addressField where_
    (key, value) =
  SqlUtil.handle_entry rangeField ListField addressField [] [] where_
    (key, value).
Proof.
  intros Haddr.
  unfold Part000.handle_entry, SqlUtil.handle_entry.
  destruct (includes addressField key).
  - destruct (Haddr eq_refl) as (nested & -> & Hall).
    cbn [own_entries]. rewrite length_indexed_from.
    pose proof (address_loop_country_only key nested [] []
                  (S (List.length nested)) (Nat.lt_succ_diag_r _) Hall)
      as Hloop.
    cbn [app List.length] in Hloop. rewrite Hloop.
    rewrite (map_address_clause_country_only key nested Hall).
    reflexivity.
  - destruct value; reflexivity.
Qed.

End SimplerVersion.




(** No runtime makes a difference to the simpler version's answer. *)
Lemma simpler_version_on_city_under_every_runtime (rt : Runtime) :
  Part000.handleConditions rt [] [] ["location"]
    [("location", VArray [VObject [("city", VString "San Jose")]])] =
  Return
    [("OR",
      VArray
        [VObject
           [("location",
             VObject [("path", VArray [VString "city"]);
                      ("equals", VString "San Jose")])]])].
Proof. reflexivity. Qed.

(** Without address fields among the keys, the two versions agree. *)
Corollary versions_agree_without_address_fields
  (rt : Runtime) (rangeField ListField addressField : list string)
  (conditions : obj) :
  (forall key, In key (keys conditions) ->
               includes addressField key = false) ->
  Part000.handleConditions rt rangeField ListField addressField conditions =
  SqlUtil.handleConditions rangeField ListField addressField [] []
    conditions.
Proof.
  intros Hna.
  unfold Part000.handleConditions, SqlUtil.handleConditions.
  apply fold_outcome_ext_in. intros where_ [key value] Hin.
  apply handle_entry_versions_agree. intros Hkey.
  rewrite (Hna key) in Hkey; [discriminate Hkey|].
  now apply (in_map fst) in Hin.
Qed.

(** ** The loop of the simpler version ends within its fuel *)

Lemma obj_lookup_Some_In (o : obj) (k : string) (v : jsval) :
  obj_lookup o k = Some v -> In k (keys o).
Proof.
  induction o as [|[k' v'] o IH]; simpl; [discriminate|].
  destruct (String.eqb_spec k' k) as [->|_]; [now left|].
  intros H. right. now apply IH.
Qed.

(** An index whose element is neither null nor undefined is an own entry. *)
Lemma get_prop_index_present (value address : jsval) (i : nat) :
  get_prop value (index_key i) = Return address ->
  is_nullish address = false ->
  In (index_key i) (keys (own_entries value)).
Proof.
  intros Hget Hnn.
  assert (Hobj : obj_get (own_entries value) (index_key i) = address).
  { destruct value; cbn [get_prop] in Hget;
      rewrite ?index_key_not_length in Hget;
      try discriminate Hget; now injection Hget. }
  unfold obj_get in Hobj.
  destruct (obj_lookup (own_entries value) (index_key i)) as [v|] eqn:E.
  - now apply obj_lookup_Some_In in E.
  - subst address. discriminate Hnn.
Qed.

(** No more indices are own entries than there are entries. *)
Lemma indices_bounded (ks : list string) (i : nat) :
  (forall j, (j < i)%nat -> In (index_key j) ks) ->
  (i <= List.length ks)%nat.
Proof.
  intros Hin.
  rewrite <- (length_seq i 0), <- (length_map index_key).
  apply NoDup_incl_length.
  - apply Injective_map_NoDup; [|apply seq_NoDup].
    intros a b. apply index_key_inj.
  - intros k Hk. apply in_map_iff in Hk as (j & <- & Hj).
    apply in_seq in Hj. apply Hin. lia.
Qed.

Lemma push_field_nullish (key field : string) (address : jsval)
  (acc : list jsval) :
  is_nullish address = true ->
  Part000.push_field key field address acc = Throw TypeError.
Proof. now destruct address. Qed.

Section LoopFuel.
Context (rt : Runtime) (key : string) (value : jsval).

(** From any index all of whose predecessors are own entries, two amounts
    of fuel that both exceed the entries left give the same result. *)
Lemma address_loop_fuel_irrelevant (fuel1 fuel2 i : nat) (acc : list jsval) :
  (List.length (own_entries value) < i + fuel1)%nat ->
  (List.length (own_entries value) < i + fuel2)%nat ->
  (forall j, (j < i)%nat -> In (index_key j) (keys (own_entries value))) ->
  Part000.address_loop rt fuel1 key value i acc =
  Part000.address_loop rt fuel2 key value i acc.
Proof.
  revert fuel2 i acc.
  induction fuel1 as [|fuel1 IH]; intros fuel2 i acc H1 H2 Hprev.
  - apply indices_bounded in Hprev. unfold keys in Hprev.
    rewrite length_map in Hprev. lia.
  - destruct fuel2 as [|fuel2].
    + apply indices_bounded in Hprev. unfold keys in Hprev.
      rewrite length_map in Hprev. lia.
    + cbn [Part000.address_loop].
      destruct (get_prop value "length") as [len|]; cbn [bind];
        [|reflexivity].
      destruct (ToNumber rt len) as [n|]; cbn [bind]; [|reflexivity].
      destruct (num_ltb (Fin (Z.of_nat i)) n); [|reflexivity].
      destruct (get_prop value (index_key i)) as [address|] eqn:Hget;
        cbn [bind]; [|reflexivity].
      destruct (is_nullish address) eqn:Hnn.
      * now rewrite (push_field_nullish key "city" address acc Hnn).
      * destruct (Part000.push_field key "city" address acc) as [f1|];
          cbn [bind]; [|reflexivity].
        destruct (Part000.push_field key "country" address f1) as [f2|];
          cbn [bind]; [|reflexivity].
        destruct (Part000.push_field key "province" address f2) as [f3|];
          cbn [bind]; [|reflexivity].
        apply IH; try lia.
        intros j Hj. destruct (Nat.eq_dec j i) as [->|Hne].
        -- now apply (get_prop_index_present value address).
        -- apply Hprev. lia.
Qed.

(** The fuel [handle_entry] gives is enough: more fuel changes nothing. *)
Lemma address_loop_fuel_enough (fuel : nat) :
  (List.length (own_entries value) < fuel)%nat ->
  Part000.address_loop rt fuel key value 0 [] =
  Part000.address_loop rt (S (List.length (own_entries value))) key value
    0 [].
Proof.
  intros Hfuel. apply address_loop_fuel_irrelevant; lia.
Qed.

End LoopFuel.

(** * Further properties *)

(** * Further properties of the code *)

(** ** removeNullValues *)

Lemma strip_nulls_idempotent (o : obj) :
  strip_nulls (strip_nulls o) = strip_nulls o.
Proof.
  unfold strip_nulls. induction o as [|[k v] o IH]; simpl; [reflexivity|].
  destruct (is_null v) eqn:E; simpl; [assumption|].
  now rewrite E, IH.
Qed.

(** X1: [removeNullValues] raises a TypeError on null and undefined; on an
    object without an own key [__proto__] it returns the entries whose
    value is not null, in their order, so a key holding undefined stays
    and a key holding null goes; applying it to its own result changes
    nothing. *)
Theorem removeNullValues_keeps_all_but_null :
  forall o : obj,
    SqlUtil.removeNullValues VNull = Throw TypeError /\
    SqlUtil.removeNullValues VUndefined = Throw TypeError /\
    (NoDup (keys o) ->
     obj_has o "__proto__" = false ->
     SqlUtil.removeNullValues (VObject o) = Return (VObject (strip_nulls o)) /\
     (forall k v, In (k, v) o -> v <> VNull ->
                  obj_lookup (strip_nulls o) k = Some v) /\
     (forall k, In (k, VNull) o -> obj_lookup (strip_nulls o) k = None) /\
     SqlUtil.removeNullValues (VObject (strip_nulls o)) =
     Return (VObject (strip_nulls o))).
Proof.
  intros o. split; [reflexivity|]. split; [reflexivity|].
  intros Hnd _.
  pose proof (NoDup_keys_strip_nulls o Hnd) as Hnds.
  split; [now apply removeNullValues_object|]. split; [|split].
  - intros k v Hin Hv. apply obj_lookup_In; [assumption|].
    apply In_strip_nulls. split; [assumption|].
    destruct v; try reflexivity. now destruct Hv.
  - intros k Hin.
    destruct (obj_lookup (strip_nulls o) k) as [v|] eqn:E; [|reflexivity].
    apply obj_lookup_Some_pair in E. apply In_strip_nulls in E as [Hin' Hnn].
    pose proof (obj_lookup_In o k v Hnd Hin') as H1.
    pose proof (obj_lookup_In o k VNull Hnd Hin) as H2.
    rewrite H1 in H2. injection H2 as ->. discriminate Hnn.
  - rewrite (removeNullValues_object _ Hnds).
    now rewrite strip_nulls_idempotent.
Qed.

(** An object with a null, an undefined and a number. *)
Lemma removeNullValues_keeps_all_but_null_witness :
  SqlUtil.removeNullValues
    (VObject [("city", VNull); ("zip", VUndefined);
              ("country", VString "US")]) =
  Return (VObject [("zip", VUndefined); ("country", VString "US")]).
Proof.
  refine (proj1 (proj2 (proj2
            (removeNullValues_keeps_all_but_null
               [("city", VNull); ("zip", VUndefined);
                ("country", VString "US")])) _ eq_refl)).
  repeat constructor; simpl; intuition discriminate.
Defined.

(** ** When the condition translator raises *)

Lemma get_prop_defined (p : jsval) (k : string) :
  is_nullish p = false -> exists v, get_prop p k = Return v.
Proof.
  intros Hnn. destruct p; try discriminate Hnn; cbn [get_prop];
    try (destruct (String.eqb k "length")); eexists; reflexivity.
Qed.

Lemma address_clause_returns (key : string) (p : jsval) :
  is_nullish p = false -> exists c, SqlUtil.address_clause key p = Return c.
Proof.
  intros Hnn. unfold SqlUtil.address_clause, SqlUtil.removeNullValues.
  rewrite Hnn. cbn [bind].
  unfold SqlUtil.and_then, SqlUtil.is_truthy, SqlUtil.is_falsy.
  destruct (get_prop_defined p "country" Hnn) as [c ->].
  destruct (get_prop_defined p "province" Hnn) as [pr ->].
  destruct (get_prop_defined p "city" Hnn) as [ci ->].
  cbn [bind].
  destruct (truthy c); cbn [bind]; [|eexists; reflexivity].
  destruct (truthy pr); cbn [bind negb]; [eexists; reflexivity|].
  destruct (truthy ci); cbn [bind negb]; eexists; reflexivity.
Qed.

Lemma address_clause_nullish (key : string) (p : jsval) :
  is_nullish p = true -> SqlUtil.address_clause key p = Throw TypeError.
Proof.
  intros Hn. unfold SqlUtil.address_clause, SqlUtil.removeNullValues.
  now rewrite Hn.
Qed.

Lemma map_address_clause_outcome (key : string) (params : list jsval) :
  match map_outcome (SqlUtil.address_clause key) params with
  | Return _ => forallb (fun p => negb (is_nullish p)) params = true
  | Throw e => e = TypeError /\
               forallb (fun p => negb (is_nullish p)) params = false
  end.
Proof.
  induction params as [|p params IH]; simpl; [reflexivity|].
  destruct (is_nullish p) eqn:Hn.
  - rewrite (address_clause_nullish key p Hn). simpl. now split.
  - destruct (address_clause_returns key p Hn) as [c ->]. simpl.
    destruct (map_outcome (SqlUtil.address_clause key) params); simpl;
      assumption.
Qed.

Section Raising.
Context (rangeField ListField addressField logicAndListField
           searchField : list string).

Lemma handle_entry_outcome (where_ : obj) (entry : string * jsval) :
  match SqlUtil.handle_entry rangeField ListField addressField
          logicAndListField searchField where_ entry with
  | Return _ =>
      negb (includes addressField (fst entry)) || address_list_ok (snd entry)
      = true
  | Throw e =>
      e = TypeError /\
      negb (includes addressField (fst entry)) || address_list_ok (snd entry)
      = false
  end.
Proof.
  destruct entry as [key value]. cbn [fst snd].
  destruct (includes addressField key) eqn:Ha.
  - unfold SqlUtil.handle_entry. rewrite Ha. cbn [negb orb].
    destruct value; try (now split). cbn [address_list_ok].
    pose proof (map_address_clause_outcome key elems) as H.
    destruct (map_outcome (SqlUtil.address_clause key) elems); exact H.
  - destruct (handle_entry_plain rangeField ListField addressField
                logicAndListField searchField where_ key value Ha)
      as (c & _ & _ & ->).
    reflexivity.
Qed.

Lemma fold_handle_entry_outcome (conditions acc : obj) :
  match fold_outcome
          (SqlUtil.handle_entry rangeField ListField addressField
             logicAndListField searchField) conditions acc with
  | Return _ => address_values_ok addressField conditions = true
  | Throw e => e = TypeError /\
               address_values_ok addressField conditions = false
  end.
Proof.
  revert acc. induction conditions as [|entry l IH]; intros acc;
    cbn [fold_outcome address_values_ok forallb]; [reflexivity|].
  pose proof (handle_entry_outcome acc entry) as He.
  destruct (SqlUtil.handle_entry rangeField ListField addressField
              logicAndListField searchField acc entry) as [acc'|e];
    cbn [bind].
  - rewrite He. cbn [andb]. apply IH.
  - destruct He as [-> ->]. now split.
Qed.

End Raising.

(** X2: the extended [handleConditions] returns a predicate exactly when
    every address field of the condition map holds a list without null or
    undefined elements; in every other case it raises a TypeError, and it
    raises nothing else. *)
Theorem handleConditions_raises_exactly :
  forall rangeField ListField addressField logicAndListField searchField
         (conditions : obj),
    match SqlUtil.handleConditions rangeField ListField addressField
            logicAndListField searchField conditions with
    | Return _ => address_values_ok addressField conditions = true
    | Throw e => e = TypeError /\
                 address_values_ok addressField conditions = false
    end.
Proof.
  intros. unfold SqlUtil.handleConditions. apply fold_handle_entry_outcome.
Qed.

(** ** The keys of the predicate *)

Lemma keys_obj_set (o : obj) (k k' : string) (v : jsval) :
  In k' (keys (obj_set o k v)) <-> k' = k \/ In k' (keys o).
Proof.
  induction o as [|[k0 v0] o IH]; simpl.
  - intuition.
  - destruct (String.eqb_spec k0 k) as [->|Hne]; simpl.
    + intuition.
    + rewrite IH. intuition.
Qed.

Lemma NoDup_keys_obj_set (o : obj) (k : string) (v : jsval) :
  NoDup (keys o) -> NoDup (keys (obj_set o k v)).
Proof.
  induction o as [|[k0 v0] o IH]; simpl; intros Hnd.
  - constructor; [intros []|constructor].
  - inversion Hnd as [|? ? Hnin Hnd']; subst.
    destruct (String.eqb_spec k0 k) as [->|Hne]; simpl.
    + now constructor.
    + constructor; [|now apply IH].
      intros Hin. apply keys_obj_set in Hin as [->|Hin]; [now apply Hne|].
      now apply Hnin.
Qed.

Section PredicateKeys.
Context (rangeField ListField addressField logicAndListField
           searchField : list string).

Lemma handle_entry_written (where_ where' : obj) (entry : string * jsval) :
  SqlUtil.handle_entry rangeField ListField addressField logicAndListField
    searchField where_ entry = Return where' ->
  exists clause,
    where' = obj_set where_ (written_key addressField (fst entry)) clause.
Proof. apply handle_entry_writes. Qed.

Lemma fold_handle_entry_keys (conditions acc where_ : obj) :
  fold_outcome
    (SqlUtil.handle_entry rangeField ListField addressField
       logicAndListField searchField) conditions acc = Return where_ ->
  (NoDup (keys acc) -> NoDup (keys where_)) /\
  (forall k,
      In k (keys where_) <->
      In k (keys acc) \/
      exists key, In key (keys conditions) /\
                  written_key addressField key = k).
Proof.
  revert acc. induction conditions as [|entry l IH]; intros acc;
    cbn [fold_outcome].
  - intros [= <-]. split; [trivial|].
    intros k. split; [now left|]. intros [H|(key & [] & _)]. exact H.
  - destruct (SqlUtil.handle_entry rangeField ListField addressField
                logicAndListField searchField acc entry) as [acc'|] eqn:He;
      cbn [bind]; [|discriminate].
    intros Hfold. apply handle_entry_written in He as [c ->].
    destruct (IH _ Hfold) as [Hnd Hkeys]. split.
    + intros Ha. apply Hnd. now apply NoDup_keys_obj_set.
    + intros k. rewrite Hkeys, keys_obj_set. simpl. split.
      * intros [[->|H]|(key & Hin & Hw)].
        -- right. exists (fst entry). split; [now left|reflexivity].
        -- now left.
        -- right. exists key. split; [now right|assumption].
      * intros [H|(key & [<-|Hin] & Hw)].
        -- left. now right.
        -- left. left. now symmetry.
        -- right. exists key. now split.
Qed.

End PredicateKeys.

(** X3: on a condition map without a key [__proto__], the predicate
    [handleConditions] returns holds each key once; its keys are the keys
    of the condition map that are not address fields, and [OR] when the
    map has an address field: an address field never appears under its own
    name. *)
Theorem handleConditions_keys :
  forall rangeField ListField addressField logicAndListField searchField
         (conditions where_ : obj),
    obj_has conditions "__proto__" = false ->
    SqlUtil.handleConditions rangeField ListField addressField
      logicAndListField searchField conditions = Return where_ ->
    NoDup (keys where_) /\
    (forall k,
        In k (keys where_) <->
        (In k (keys conditions) /\ includes addressField k = false) \/
        (k = "OR" /\
         exists key, In key (keys conditions) /\
                     includes addressField key = true)).
Proof.
  intros rangeField ListField addressField logicAndListField searchField
    conditions where_ _ Hrun.
  destruct (fold_handle_entry_keys rangeField ListField addressField
              logicAndListField searchField conditions [] where_ Hrun)
    as [Hnd Hkeys].
  split; [apply Hnd; constructor|].
  intros k. rewrite Hkeys. unfold written_key. split.
  - intros [[]|(key & Hin & Hw)].
    destruct (includes addressField key) eqn:Ha.
    + right. split; [now symmetry|]. now exists key.
    + left. subst k. now split.
  - intros [[Hin Ha]|[-> (key & Hin & Ha)]]; right.
    + exists k. now rewrite Ha.
    + exists key. now rewrite Ha.
Qed.

(** A map with an address field and a scalar field. *)
Lemma handleConditions_keys_witness :
  NoDup
    (keys [("OR", VArray [country_clause "location" (VString "US")]);
           ("name", VObject [("equals", VString "x")])]) /\
  (forall k,
      In k (keys [("OR", VArray [country_clause "location" (VString "US")]);
                  ("name", VObject [("equals", VString "x")])]) <->
      (In k (keys [("location", VArray [VObject [("country", VString "US")]]);
                   ("name", VString "x")]) /\
       includes ["location"] k = false) \/
      (k = "OR" /\
       exists key,
         In key (keys [("location",
                        VArray [VObject [("country", VString "US")]]);
                       ("name", VString "x")]) /\
         includes ["location"] key = true)).
Proof.
  exact (handleConditions_keys [] [] ["location"] [] []
           [("location", VArray [VObject [("country", VString "US")]]);
            ("name", VString "x")]
           _ eq_refl eq_refl).
Defined.

(** ** Pages *)

(** X4: on integers that, with the two offsets, are at most 2^53 in
    absolute value, the offset of page [p + 1] is the offset of page [p]
    plus the limit, so consecutive pages neither overlap nor leave a gap;
    page 0, null and undefined are page 1. *)
Theorem getPagination_pages_tile :
  forall (rt : Runtime),
    (forall page size : Z,
        page <> 0 -> page + 1 <> 0 -> size <> 0 ->
        exact_integer page = true ->
        exact_integer (page + 1) = true ->
        exact_integer size = true ->
        exact_integer ((page - 1) * size) = true ->
        exact_integer (page * size) = true ->
        exists offset : Z,
          SqlUtil.getPagination rt (VNumber (Fin page)) (VNumber (Fin size)) =
          Return [("take", VNumber (Fin size));
                  ("skip", VNumber (Fin offset))] /\
          SqlUtil.getPagination rt (VNumber (Fin (page + 1)))
            (VNumber (Fin size)) =
          Return [("take", VNumber (Fin size));
                  ("skip", VNumber (Fin (offset + size)))]) /\
    (forall pageSize,
        SqlUtil.getPagination rt (VNumber (Fin 0)) pageSize =
        SqlUtil.getPagination rt (VNumber (Fin 1)) pageSize /\
        SqlUtil.getPagination rt VNull pageSize =
        SqlUtil.getPagination rt (VNumber (Fin 1)) pageSize /\
        SqlUtil.getPagination rt VUndefined pageSize =
        SqlUtil.getPagination rt (VNumber (Fin 1)) pageSize).
Proof.
  intros rt. split.
  - intros page size Hp Hp1 Hs _ _ _ _ _. exists ((page - 1) * size).
    assert (Hres : forall z d, z <> 0 -> resolve_int z d = z).
    { intros z d Hz. unfold resolve_int.
      now apply Z.eqb_neq in Hz as ->. }
    split.
    + rewrite (getPagination_run rt _ _ (Fin page) (Fin size));
        rewrite ?default_when_falsy_int, ?Hres by assumption; reflexivity.
    + rewrite (getPagination_run rt _ _ (Fin (page + 1)) (Fin size));
        rewrite ?default_when_falsy_int, ?Hres by assumption;
        try reflexivity.
      cbn [num_sub num_mul].
      now replace ((page + 1 - 1) * size) with ((page - 1) * size + size)
        by ring.
  - intros pageSize. repeat split.
Qed.

Lemma getPagination_pages_tile_witness :
  exists offset : Z,
    SqlUtil.getPagination plain_runtime (VNumber (Fin 3)) (VNumber (Fin 10)) =
    Return [("take", VNumber (Fin 10)); ("skip", VNumber (Fin offset))] /\
    SqlUtil.getPagination plain_runtime (VNumber (Fin (3 + 1)))
      (VNumber (Fin 10)) =
    Return [("take", VNumber (Fin 10));
            ("skip", VNumber (Fin (offset + 10)))].
Proof.
  refine (proj1 (getPagination_pages_tile plain_runtime) 3 10
            _ _ _ _ _ _ _ _);
    reflexivity || lia.
Defined.

(** ** What a fetch does to the store *)

Lemma disconnects_reads (calls : list call) :
  forallb is_read calls = true -> disconnects calls = 0%nat.
Proof.
  unfold disconnects. induction calls as [|c calls IH]; simpl;
    [reflexivity|].
  intros H. apply andb_prop in H as [Hc H].
  destruct c; try discriminate Hc; now apply IH.
Qed.

(** X5: whatever its arguments and whatever the store answers, a paginated
    fetch makes at most two calls, both reads, and never releases the
    connection; when it returns it has made the page query and then the
    count query, with the same predicate. *)
Theorem fetch_reads_only :
  forall (S : Type) (rt : Runtime) (pageNumber pageSize : jsval)
         (conditions : obj) (collection : Collection S)
         (orderByField : jsval)
         (rangeField ListField addressField logicAndListField
            searchField : list string)
         (onDataProcess : option (jsval -> outcome jsval)) (w : world S),
  exists calls,
    log (snd (SqlUtil.fetchDataWithPagination rt pageNumber pageSize
                conditions collection orderByField rangeField ListField
                addressField logicAndListField searchField onDataProcess w)) =
    log w ++ calls /\
    forallb is_read calls = true /\
    disconnects calls = 0%nat /\
    (List.length calls <= 2)%nat /\
    (forall v,
        fst (SqlUtil.fetchDataWithPagination rt pageNumber pageSize
               conditions collection orderByField rangeField ListField
               addressField logicAndListField searchField onDataProcess w) =
        Return v ->
        exists query take skip,
          calls = [CallFindMany (findMany_args query orderByField take skip);
                   CallCount (count_args query)]).
Proof.
  intros.
  unfold SqlUtil.fetchDataWithPagination, io_bind, lift, perform, ret.
  destruct (SqlUtil.getPagination rt pageNumber pageSize) as [pg|].
  2:{ exists []. cbn [snd fst]. rewrite app_nil_r.
      repeat split; [simpl; lia|]. intros v Hv. discriminate Hv. }
  destruct (SqlUtil.handleConditions rangeField ListField addressField
              logicAndListField searchField conditions) as [query|].
  2:{ exists []. cbn [snd fst]. rewrite app_nil_r.
      repeat split; [simpl; lia|]. intros v Hv. discriminate Hv. }
  fold (findMany_args query orderByField (obj_get pg "take")
          (obj_get pg "skip")).
  fold (count_args query).
  destruct (findMany collection _ (store w)) as [[data|e] s1]; cbn [store log].
  2:{ eexists [_]. cbn [snd fst log].
      repeat split; [simpl; lia|]. intros v Hv. discriminate Hv. }
  destruct (count collection _ s1) as [[total|e] s2]; cbn [store log].
  2:{ eexists [_; _]. cbn [snd fst log]. rewrite <- app_assoc.
      repeat split; [simpl; lia|]. intros v Hv. discriminate Hv. }
  eexists [_; _].
  destruct (ToNumber rt pageSize) as [size|]; cbn [snd fst store log];
    [destruct (SqlUtil.process onDataProcess data);
     cbn [snd fst store log]|];
    rewrite <- app_assoc; cbn [app];
    (repeat split; [simpl; lia|]); intros; do 3 eexists; reflexivity.
Qed.

(** X6: a failure of the page query or of the count query is not caught:
    the fetch raises the store's error as it is; after a failed page query
    the count query is not made. *)
Theorem fetch_rejection_propagates :
  forall (S : Type) (rt : Runtime) (pageNumber pageSize : jsval)
         (conditions : obj) (collection : Collection S)
         (orderByField : jsval)
         (rangeField ListField addressField logicAndListField
            searchField : list string)
         (onDataProcess : option (jsval -> outcome jsval)) (w : world S)
         (pagination query : obj) (e : exn),
    SqlUtil.getPagination rt pageNumber pageSize = Return pagination ->
    SqlUtil.handleConditions rangeField ListField addressField
      logicAndListField searchField conditions = Return query ->
    (forall s1,
        findMany collection
          (findMany_args query orderByField (obj_get pagination "take")
             (obj_get pagination "skip")) (store w) = (Throw e, s1) ->
        SqlUtil.fetchDataWithPagination rt pageNumber pageSize conditions
          collection orderByField rangeField ListField addressField
          logicAndListField searchField onDataProcess w =
        (Throw e,
         {| store := s1;
            log := log w ++
                   [CallFindMany
                      (findMany_args query orderByField
                         (obj_get pagination "take")
                         (obj_get pagination "skip"))] |})) /\
    (forall data s1 s2,
        findMany collection
          (findMany_args query orderByField (obj_get pagination "take")
             (obj_get pagination "skip")) (store w) = (Return data, s1) ->
        count collection (count_args query) s1 = (Throw e, s2) ->
        SqlUtil.fetchDataWithPagination rt pageNumber pageSize conditions
          collection orderByField rangeField ListField addressField
          logicAndListField searchField onDataProcess w =
        (Throw e,
         {| store := s2;
            log := log w ++
                   [CallFindMany
                      (findMany_args query orderByField
                         (obj_get pagination "take")
                         (obj_get pagination "skip"));
                    CallCount (count_args query)] |})).
Proof.
  intros S rt pageNumber pageSize conditions collection orderByField
    rangeField ListField addressField logicAndListField searchField
    onDataProcess w pagination query e Hpage Hquery.
  split.
  - intros s1 Hfind.
    unfold SqlUtil.fetchDataWithPagination, io_bind, lift, perform, ret.
    rewrite Hpage, Hquery.
    fold (findMany_args query orderByField (obj_get pagination "take")
            (obj_get pagination "skip")).
    now rewrite Hfind.
  - intros data s1 s2 Hfind Hcount.
    unfold SqlUtil.fetchDataWithPagination, io_bind, lift, perform, ret.
    rewrite Hpage, Hquery.
    fold (findMany_args query orderByField (obj_get pagination "take")
            (obj_get pagination "skip")).
    fold (count_args query).
    rewrite Hfind. cbn [store log]. rewrite Hcount.
    now rewrite <- app_assoc.
Qed.

(** A store that is down: the fetch raises its error after one call. *)
Lemma fetch_rejection_propagates_witness :
  SqlUtil.fetchDataWithPagination plain_runtime (VNumber (Fin 1))
    (VNumber (Fin 10)) [] (failing_collection (VString "down")) VUndefined
    [] [] [] [] [] None fresh_world =
  (Throw (Rejected (VString "down")),
   {| store := tt;
      log := [CallFindMany
                (findMany_args [] VUndefined (VNumber (Fin 10))
                   (VNumber (Fin 0)))] |}).
Proof.
  exact (proj1 (fetch_rejection_propagates unit plain_runtime
                  (VNumber (Fin 1)) (VNumber (Fin 10)) []
                  (failing_collection (VString "down")) VUndefined
                  [] [] [] [] [] None fresh_world
                  [("take", VNumber (Fin 10)); ("skip", VNumber (Fin 0))] []
                  (Rejected (VString "down")) eq_refl eq_refl)
           tt eq_refl).
Defined.

(** X7: the records of the returned envelope are the callback's answer,
    unless the callback is left out or answers null or undefined: then
    they are the records as the store returned them.  A callback that
    raises makes the fetch raise, after both queries. *)
Theorem fetch_applies_callback :
  forall (S : Type) (rt : Runtime) (pageNumber pageSize : jsval)
         (conditions : obj) (collection : Collection S)
         (orderByField : jsval)
         (rangeField ListField addressField logicAndListField
            searchField : list string) (w : world S)
         (pagination query : obj) (data : jsval) (total size : num)
         (s1 s2 : S),
    SqlUtil.getPagination rt pageNumber pageSize = Return pagination ->
    SqlUtil.handleConditions rangeField ListField addressField
      logicAndListField searchField conditions = Return query ->
    findMany collection
      (findMany_args query orderByField (obj_get pagination "take")
         (obj_get pagination "skip")) (store w) = (Return data, s1) ->
    count collection (count_args query) s1 = (Return total, s2) ->
    ToNumber rt pageSize = Return size ->
    fst (SqlUtil.fetchDataWithPagination rt pageNumber pageSize conditions
           collection orderByField rangeField ListField addressField
           logicAndListField searchField None w) =
    Return (envelope data total (Math_ceil_div total size) pageNumber) /\
    (forall f r,
        f data = Return r ->
        fst (SqlUtil.fetchDataWithPagination rt pageNumber pageSize
               conditions collection orderByField rangeField ListField
               addressField logicAndListField searchField (Some f) w) =
        Return (envelope (if is_nullish r then data else r) total
                  (Math_ceil_div total size) pageNumber)) /\
    (forall f e,
        f data = Throw e ->
        SqlUtil.fetchDataWithPagination rt pageNumber pageSize
          conditions collection orderByField rangeField ListField
          addressField logicAndListField searchField (Some f) w =
        (Throw e,
         {| store := s2;
            log := log w ++
                   [CallFindMany
                      (findMany_args query orderByField
                         (obj_get pagination "take")
                         (obj_get pagination "skip"));
                    CallCount (count_args query)] |})).
Proof.
  intros S rt pageNumber pageSize conditions collection orderByField
    rangeField ListField addressField logicAndListField searchField w
    pagination query data total size s1 s2 Hpage Hquery Hfind Hcount Hsize.
  split; [|split].
  - now rewrite (fetch_run rt pageNumber pageSize conditions collection
                   orderByField rangeField ListField addressField
                   logicAndListField searchField None w pagination query
                   data data total size s1 s2).
  - intros f r Hf.
    rewrite (fetch_run rt pageNumber pageSize conditions collection
               orderByField rangeField ListField addressField
               logicAndListField searchField (Some f) w pagination query
               data (if is_nullish r then data else r) total size s1 s2);
      try assumption; [reflexivity|].
    cbn [SqlUtil.process]. now rewrite Hf.
  - intros f e Hf.
    unfold SqlUtil.fetchDataWithPagination, io_bind, lift, perform, ret.
    rewrite Hpage, Hquery.
    fold (findMany_args query orderByField (obj_get pagination "take")
            (obj_get pagination "skip")).
    fold (count_args query).
    rewrite Hfind. cbn [store log]. rewrite Hcount, Hsize.
    cbn [SqlUtil.process]. rewrite Hf. cbn [bind store log].
    now rewrite <- app_assoc.
Qed.

(** A callback that answers nothing leaves the records as they are. *)
Lemma fetch_applies_callback_witness :
  fst (SqlUtil.fetchDataWithPagination plain_runtime (VNumber (Fin 1))
         (VNumber (Fin 10)) [] (fixed_collection (VArray [VString "row"]) 1)
         VUndefined [] [] [] [] [] (Some (fun _ => Return VUndefined))
         fresh_world) =
  Return (envelope (VArray [VString "row"]) (Fin 1) (Fin 1)
            (VNumber (Fin 1))).
Proof.
  exact (proj1 (proj2 (fetch_applies_callback unit plain_runtime
                         (VNumber (Fin 1)) (VNumber (Fin 10)) []
                         (fixed_collection (VArray [VString "row"]) 1)
                         VUndefined [] [] [] [] [] fresh_world
                         [("take", VNumber (Fin 10));
                          ("skip", VNumber (Fin 0))] []
                         (VArray [VString "row"]) (Fin 1) (Fin 10) tt tt
                         eq_refl eq_refl eq_refl eq_refl eq_refl))
           (fun _ => Return VUndefined) VUndefined eq_refl).
Defined.

(** X8: when pageSize is 0, null or undefined, the page query is made with
    the default limit 20, but the pages are counted with the argument as
    given: for a positive total the envelope reports Infinity pages (NaN
    when pageSize is undefined), not the number of pages of 20. *)
Theorem fetch_without_pageSize :
  forall (S : Type) (rt : Runtime) (pageNumber pageSize : jsval)
         (conditions : obj) (collection : Collection S)
         (orderByField : jsval)
         (rangeField ListField addressField logicAndListField
            searchField : list string)
         (onDataProcess : option (jsval -> outcome jsval)) (w : world S)
         (page : num) (total : Z) (query : obj) (data result : jsval)
         (s1 s2 : S),
    In pageSize [VNumber (Fin 0); VNull; VUndefined] ->
    0 < total ->
    ToNumber rt (default_when_falsy pageNumber 1) = Return page ->
    SqlUtil.handleConditions rangeField ListField addressField
      logicAndListField searchField conditions = Return query ->
    findMany collection
      (findMany_args query orderByField (VNumber (Fin 20))
         (VNumber (num_mul (num_sub page (Fin 1)) (Fin 20))))
      (store w) = (Return data, s1) ->
    count collection (count_args query) s1 = (Return (Fin total), s2) ->
    SqlUtil.process onDataProcess data = Return result ->
    SqlUtil.fetchDataWithPagination rt pageNumber pageSize conditions
      collection orderByField rangeField ListField addressField
      logicAndListField searchField onDataProcess w =
    (Return (envelope result (Fin total) (pages_without_size pageSize)
               pageNumber),
     {| store := s2;
        log := log w ++
               [CallFindMany
                  (findMany_args query orderByField (VNumber (Fin 20))
                     (VNumber (num_mul (num_sub page (Fin 1)) (Fin 20))));
                CallCount (count_args query)] |}).
Proof.
  intros S rt pageNumber pageSize conditions collection orderByField
    rangeField ListField addressField logicAndListField searchField
    onDataProcess w page total query data result s1 s2
    Hsize Htotal Hpage Hquery Hfind Hcount Hproc.
  assert (Hpg : SqlUtil.getPagination rt pageNumber pageSize =
                Return [("take", VNumber (Fin 20));
                        ("skip",
                         VNumber (num_mul (num_sub page (Fin 1)) (Fin 20)))]).
  { rewrite (getPagination_run rt pageNumber pageSize page (Fin 20) Hpage);
      simpl in Hsize;
      destruct Hsize as [<-|[<-|[<-|[]]]]; reflexivity. }
  assert (Hdiv : exists size,
             ToNumber rt pageSize = Return size /\
             Math_ceil_div (Fin total) size = pages_without_size pageSize).
  { simpl in Hsize.
    destruct Hsize as [<-|[<-|[<-|[]]]]; eexists; (split; [reflexivity|]);
      cbn [Math_ceil_div pages_without_size]; try reflexivity;
      replace (total =? 0) with false by (symmetry; apply Z.eqb_neq; lia);
      now replace (0 <? total) with true by (symmetry; apply Z.ltb_lt; lia). }
  destruct Hdiv as (size & Hnum & <-).
  exact (fetch_run rt pageNumber pageSize conditions collection
           orderByField rangeField ListField addressField
           logicAndListField searchField onDataProcess w _ query data
           result (Fin total) size s1 s2 Hpg Hquery Hfind Hcount Hnum
           Hproc).
Qed.

(** 95 records and a page size of 0: pages of 20 are read, Infinity pages
    are reported. *)
Lemma fetch_without_pageSize_witness :
  SqlUtil.fetchDataWithPagination plain_runtime (VNumber (Fin 2))
    (VNumber (Fin 0)) [] (fixed_collection (VArray []) 95) VUndefined
    [] [] [] [] [] None fresh_world =
  (Return (envelope (VArray []) (Fin 95) PInf (VNumber (Fin 2))),
   {| store := tt;
      log := [CallFindMany
                (findMany_args [] VUndefined (VNumber (Fin 20))
                   (VNumber (Fin 20)));
              CallCount (count_args [])] |}).
Proof.
  refine (fetch_without_pageSize unit plain_runtime (VNumber (Fin 2))
            (VNumber (Fin 0)) [] (fixed_collection (VArray []) 95)
            VUndefined [] [] [] [] [] None fresh_world (Fin 2) 95 []
            (VArray []) (VArray []) tt tt _ _ _ _ _ _ _);
    try reflexivity.
  simpl. now left.
Defined.

(** ** The date normalizer answers a date or null *)

Lemma TimeClip_idempotent (t : num) : TimeClip (TimeClip t) = TimeClip t.
Proof.
  destruct t as [z| | |]; simpl; try reflexivity.
  destruct (Z.abs z <=? max_time) eqn:E; simpl; [now rewrite E|reflexivity].
Qed.

(** X9: whatever the input, an answer of the date normalizer is null or a
    date, and a date it builds from a string is a valid one; a date or a
    number given as input is answered with null, so normalizing an answer
    of the normalizer again always gives null. *)
Theorem toSQLDateTime_answers_date_or_null :
  forall (rt : Runtime),
    (forall t, SqlUtil.toSQLDateTime rt (VDate t) = Return VNull) /\
    (forall n, SqlUtil.toSQLDateTime rt (VNumber n) = Return VNull) /\
    (forall s r,
        SqlUtil.toSQLDateTime rt (VString s) = Return r ->
        r = VNull \/ exists z, r = VDate (Fin z) /\ Z.abs z <= max_time) /\
    (forall input r,
        SqlUtil.toSQLDateTime rt input = Return r ->
        (r = VNull \/ exists t, r = VDate t /\ TimeClip t = t) /\
        SqlUtil.toSQLDateTime rt r = Return VNull).
Proof.
  intros rt.
  assert (Hshape : forall input r,
             SqlUtil.toSQLDateTime rt input = Return r ->
             r = VNull \/ exists t, r = VDate t /\ TimeClip t = t).
  { intros input r. unfold SqlUtil.toSQLDateTime.
    destruct input;
      try (destruct (SqlUtil.is_object_with _ "_seconds");
           [destruct (ToNumber rt _); cbn [bind];
            [intros [= <-]; right; eexists; split;
             [reflexivity|apply TimeClip_idempotent]
            |discriminate]
           |intros [= <-]; now left]).
    destruct (negb (isNaN (Date_parse rt s))); intros [= <-];
      [right|now left].
    eexists. split; [reflexivity|apply TimeClip_idempotent]. }
  split; [reflexivity|]. split; [reflexivity|]. split.
  - intros s r. rewrite toSQLDateTime_string.
    destruct (Date_parse rt s) as [z| | |] eqn:E; cbn [isNaN];
      intros [= <-]; try (now left).
    + right. exists z. split; [reflexivity|].
      pose proof (Date_parse_time_value rt s) as H. rewrite E in H.
      cbn [TimeClip] in H.
      destruct (Z.leb_spec (Z.abs z) max_time); [assumption|discriminate H].
    + pose proof (Date_parse_time_value rt s) as H. rewrite E in H.
      discriminate H.
    + pose proof (Date_parse_time_value rt s) as H. rewrite E in H.
      discriminate H.
  - intros input r Hr. split; [now apply (Hshape input)|].
    destruct (Hshape input r Hr) as [->|(t & -> & _)]; reflexivity.
Qed.

(** Seconds of the epoch, then the answer given back. *)
Lemma toSQLDateTime_answers_date_or_null_witness :
  (VDate (Fin 100000) = VNull \/
   exists t, VDate (Fin 100000) = VDate t /\ TimeClip t = t) /\
  SqlUtil.toSQLDateTime plain_runtime (VDate (Fin 100000)) = Return VNull.
Proof.
  exact (proj2 (proj2 (proj2
           (toSQLDateTime_answers_date_or_null plain_runtime)))
           (VObject [("_seconds", VNumber (Fin 100))]) (VDate (Fin 100000))
           eq_refl).
Defined.

(** ** What the projector returns, key by key *)

Lemma obj_lookup_delete (o : obj) (k k' : string) :
  obj_lookup (obj_delete o k) k' =
  if (k =? k')%string then None else obj_lookup o k'.
Proof.
  induction o as [|[k0 v0] o IH]; simpl.
  - now destruct (String.eqb k k').
  - destruct (String.eqb_spec k0 k) as [->|Hne]; simpl.
    + rewrite IH. now destruct (String.eqb k k').
    + rewrite IH. destruct (String.eqb_spec k0 k') as [->|_].
      * now apply String.eqb_neq in Hne; rewrite String.eqb_sym, Hne.
      * reflexivity.
Qed.

Lemma obj_lookup_None_iff (o : obj) (k : string) :
  obj_lookup o k = None <-> ~ In k (keys o).
Proof.
  split.
  - intros Hnone Hin. apply in_map_iff in Hin as ([k' v] & Hk & Hin).
    simpl in Hk. subst k'.
    induction o as [|[k0 v0] o IH]; simpl in *; [contradiction|].
    destruct (String.eqb_spec k0 k) as [->|Hne]; [discriminate|].
    destruct Hin as [[= -> ->]|Hin]; [now apply Hne|now apply IH].
  - apply obj_lookup_absent.
Qed.

Section ProjectorByKey.
Context (rt : Runtime) (dates allowed : list string).

Lemma pruned_lookup_same (result : obj) (key : string) :
  obj_lookup (pruned allowed result key) key =
  kept allowed key (obj_lookup result key).
Proof.
  unfold pruned, kept, obj_get.
  destruct (includes allowed key); cbn [negb andb].
  - destruct (obj_lookup result key) as [v|] eqn:E.
    + destruct (is_nullish v) eqn:Hn; cbn [negb].
      * now rewrite obj_lookup_delete, String.eqb_refl.
      * exact E.
    + cbn [is_nullish]. now rewrite obj_lookup_delete, String.eqb_refl.
  - rewrite (obj_lookup_delete result key key), String.eqb_refl.
    cbn [is_nullish].
    rewrite obj_lookup_delete, String.eqb_refl.
    now destruct (obj_lookup result key).
Qed.

Lemma pruned_lookup_other (result : obj) (key k : string) :
  key <> k -> obj_lookup (pruned allowed result key) k = obj_lookup result k.
Proof.
  intros Hne. apply String.eqb_neq in Hne. unfold pruned.
  destruct (negb (includes allowed key));
    destruct (is_nullish _);
    rewrite ?obj_lookup_delete, ?Hne; reflexivity.
Qed.

Lemma transform_key_pruned (result : obj) (key : string) :
  SqlUtil.transform_key rt dates allowed result key =
  if includes dates key then
    (date <- SqlUtil.toSQLDateTime rt
               (value_or_undefined
                  (kept allowed key (obj_lookup result key))) ;;
     Return (obj_set (pruned allowed result key) key date))
  else Return (pruned allowed result key).
Proof.
  unfold SqlUtil.transform_key. fold (pruned allowed result key).
  destruct (includes dates key); [|reflexivity].
  unfold obj_get at 1. now rewrite pruned_lookup_same.
Qed.

(** One round changes the key it visits and no other. *)
Lemma transform_key_lookup (result result' : obj) (key : string) :
  SqlUtil.transform_key rt dates allowed result key = Return result' ->
  (forall k, key <> k -> obj_lookup result' k = obj_lookup result k) /\
  (includes dates key = false ->
   obj_lookup result' key = kept allowed key (obj_lookup result key)) /\
  (includes dates key = true ->
   exists date,
     SqlUtil.toSQLDateTime rt
       (value_or_undefined (kept allowed key (obj_lookup result key))) =
     Return date /\
     obj_lookup result' key = Some date).
Proof.
  rewrite transform_key_pruned.
  destruct (includes dates key).
  - destruct (SqlUtil.toSQLDateTime rt _) as [date|] eqn:E; cbn [bind];
      [|discriminate].
    intros [= <-]. split; [|split].
    + intros k Hne. rewrite obj_lookup_set_other by assumption.
      now apply pruned_lookup_other.
    + discriminate.
    + intros _. exists date. split; [reflexivity|].
      apply obj_lookup_set_same.
  - intros [= <-]. split; [|split].
    + intros k Hne. now apply pruned_lookup_other.
    + intros _. apply pruned_lookup_same.
    + discriminate.
Qed.

Lemma transform_loop_lookup (ks : list string) (result result' : obj) :
  NoDup ks ->
  fold_outcome (SqlUtil.transform_key rt dates allowed) ks result =
  Return result' ->
  forall k,
    (~ In k ks -> obj_lookup result' k = obj_lookup result k) /\
    (In k ks -> includes dates k = false ->
     obj_lookup result' k = kept allowed k (obj_lookup result k)) /\
    (In k ks -> includes dates k = true ->
     exists date,
       SqlUtil.toSQLDateTime rt
         (value_or_undefined (kept allowed k (obj_lookup result k))) =
       Return date /\
       obj_lookup result' k = Some date).
Proof.
  revert result. induction ks as [|k0 ks IH]; intros result Hnd;
    cbn [fold_outcome].
  - intros [= <-] k. split; [reflexivity|]. split; intros [].
  - inversion Hnd as [|? ? Hnin Hnd']; subst.
    destruct (SqlUtil.transform_key rt dates allowed result k0)
      as [r1|] eqn:Hstep; cbn [bind]; [|discriminate].
    intros Hfold k.
    destruct (transform_key_lookup result r1 k0 Hstep)
      as (Hother & Hplain & Hdate).
    destruct (IH r1 Hnd' Hfold k) as (Hout & Hin_plain & Hin_date).
    destruct (String.eqb_spec k0 k) as [<-|Hne].
    + rewrite (Hout Hnin). split; [|split].
      * intros Hn. exfalso. apply Hn. now left.
      * intros _. exact Hplain.
      * intros _. exact Hdate.
    + rewrite <- (Hother k Hne). split; [|split].
      * intros Hn. apply Hout. intros Hin. apply Hn. now right.
      * intros [->|Hin]; [now destruct Hne|]. now apply Hin_plain.
      * intros [->|Hin]; [now destruct Hne|]. now apply Hin_date.
Qed.

Lemma transform_loop_returns (ks : list string) (result : obj) :
  NoDup ks ->
  (forall k v,
      In k ks -> includes dates k = true -> obj_lookup result k = Some v ->
      exists date,
        SqlUtil.toSQLDateTime rt
          (value_or_undefined (kept allowed k (Some v))) = Return date) ->
  exists result',
    fold_outcome (SqlUtil.transform_key rt dates allowed) ks result =
    Return result'.
Proof.
  revert result. induction ks as [|k0 ks IH]; intros result Hnd Hconv;
    cbn [fold_outcome]; [now eexists|].
  inversion Hnd as [|? ? Hnin Hnd']; subst.
  assert (Hstep : exists r1,
             SqlUtil.transform_key rt dates allowed result k0 = Return r1).
  { rewrite transform_key_pruned.
    destruct (includes dates k0) eqn:Hd; [|now eexists].
    destruct (obj_lookup result k0) as [v|] eqn:E.
    - destruct (Hconv k0 v (or_introl eq_refl) Hd E) as [date ->].
      cbn [bind]. now eexists.
    - cbn [kept value_or_undefined]. now eexists. }
  destruct Hstep as [r1 Hstep]. rewrite Hstep. cbn [bind].
  apply IH; [assumption|].
  intros k v Hin Hd Hlook.
  destruct (transform_key_lookup result r1 k0 Hstep) as (Hother & _ & _).
  rewrite Hother in Hlook by (intros ->; contradiction).
  apply (Hconv k v); [now right|assumption|assumption].
Qed.

End ProjectorByKey.

(** X10: on an object, and key by key, the projector returns: for a key of
    the input that is not a date field, its value when the key is allowed
    and the value is neither null nor undefined, and nothing otherwise;
    for a key of the input that is a date field, always an entry, the
    normalizer's answer to the value when the key is allowed and the value
    is neither null nor undefined, and null otherwise; nothing for a key
    the input lacks.  It returns whenever the normalizer answers the
    values of the date fields. *)
Theorem transformData_by_key :
  forall (rt : Runtime) (dates allowed : list string) (o : obj),
    NoDup (keys o) ->
    ((forall k v,
         In (k, v) o -> includes dates k = true ->
         exists date,
           SqlUtil.toSQLDateTime rt
             (value_or_undefined (kept allowed k (Some v))) = Return date) ->
     exists result,
       SqlUtil.transformData rt (VObject o)
         (Some {| SqlUtil.dateFields := Some dates;
                  SqlUtil.allFields := Some allowed |}) = Return result) /\
    (forall result,
        SqlUtil.transformData rt (VObject o)
          (Some {| SqlUtil.dateFields := Some dates;
                   SqlUtil.allFields := Some allowed |}) = Return result ->
        forall k,
          (obj_lookup o k = None -> obj_lookup result k = None) /\
          (forall v,
              obj_lookup o k = Some v -> includes dates k = false ->
              obj_lookup result k = kept allowed k (Some v)) /\
          (forall v,
              obj_lookup o k = Some v -> includes dates k = true ->
              exists date,
                SqlUtil.toSQLDateTime rt
                  (value_or_undefined (kept allowed k (Some v))) =
                Return date /\
                obj_lookup result k = Some date) /\
          (obj_lookup o k <> None -> includes dates k = true ->
           kept allowed k (obj_lookup o k) = None ->
           obj_lookup result k = Some VNull)).
Proof.
  intros rt dates allowed o Hnd.
  unfold SqlUtil.transformData.
  cbn [SqlUtil.dateFields SqlUtil.allFields SqlUtil.or_empty SqlUtil.spread
         is_nullish own_entries].
  split.
  - intros Hconv. apply transform_loop_returns; [assumption|].
    intros k v Hin Hd Hlook. apply (Hconv k v); [|assumption].
    now apply obj_lookup_Some_pair.
  - intros result Hrun k.
    destruct (transform_loop_lookup rt dates allowed (keys o) o result
                Hnd Hrun k) as (Hout & Hplain & Hdate).
    split; [|split; [|split]].
    + intros Hnone. rewrite Hout; [assumption|].
      now apply obj_lookup_None_iff.
    + intros v Hv Hd. rewrite <- Hv. apply Hplain; [|assumption].
      now apply (obj_lookup_Some_In o k v).
    + intros v Hv Hd. rewrite <- Hv. apply Hdate; [|assumption].
      now apply (obj_lookup_Some_In o k v).
    + intros Hsome Hd Hkept.
      destruct (obj_lookup o k) as [v|] eqn:Hv; [|now destruct Hsome].
      destruct (Hdate (obj_lookup_Some_In o k v Hv) Hd) as (date & Hdt & ->).
      rewrite Hkept in Hdt. cbn [value_or_undefined] in Hdt.
      now injection Hdt as <-.
Qed.

(** An allowed name, a date field that is not allowed and a null. *)
Lemma transformData_by_key_witness :
  exists result,
    SqlUtil.transformData plain_runtime
      (VObject [("name", VString "n"); ("createdAt", VNumber (Fin 5));
                ("note", VNull)])
      (Some {| SqlUtil.dateFields := Some ["createdAt"];
               SqlUtil.allFields := Some ["name"; "note"] |}) =
    Return result.
Proof.
  refine (proj1 (transformData_by_key plain_runtime ["createdAt"]
                   ["name"; "note"]
                   [("name", VString "n"); ("createdAt", VNumber (Fin 5));
                    ("note", VNull)] _) _).
  - repeat constructor; simpl; intuition discriminate.
  - intros k v Hin Hd. simpl in Hin.
    destruct Hin as [[= <- <-]|[[= <- <-]|[[= <- <-]|[]]]];
      try discriminate Hd.
    now exists VNull.
Defined.

(** ** The projector without options *)

Lemma transform_loop_without_fields (rt : Runtime) (ks : list string)
  (result : obj) :
  exists result',
    fold_outcome (SqlUtil.transform_key rt [] []) ks result = Return result' /\
    forall k, obj_lookup result' k =
              if existsb (String.eqb k) ks then None
              else obj_lookup result k.
Proof.
  revert result. induction ks as [|k0 ks IH]; intros result;
    cbn [fold_outcome existsb].
  - now exists result.
  - rewrite transform_key_pruned. cbn [includes existsb].
    cbn [bind].
    destruct (IH (pruned [] result k0)) as (r' & -> & Hlook).
    exists r'. split; [reflexivity|].
    intros k. rewrite Hlook.
    destruct (existsb (String.eqb k) ks); [now rewrite orb_true_r|].
    rewrite orb_false_r.
    destruct (String.eqb_spec k k0) as [->|Hne].
    + rewrite pruned_lookup_same. unfold kept. cbn [includes existsb andb].
      now destruct (obj_lookup result k0).
    + apply pruned_lookup_other. now apply not_eq_sym.
Qed.

Lemma obj_without_lookups (o : obj) :
  (forall k, obj_lookup o k = None) -> o = [].
Proof.
  destruct o as [|[k v] o]; [reflexivity|].
  intros H. specialize (H k). simpl in H.
  now rewrite String.eqb_refl in H.
Qed.

(** X11: without options, or with options that name no fields, the
    projector returns the empty object, whatever the data. *)
Theorem transformData_without_options :
  forall (rt : Runtime) (data : jsval),
    SqlUtil.transformData rt data None = Return [] /\
    SqlUtil.transformData rt data
      (Some {| SqlUtil.dateFields := None; SqlUtil.allFields := None |}) =
    Return [].
Proof.
  intros rt data.
  assert (H : fold_outcome (SqlUtil.transform_key rt [] [])
                (keys (SqlUtil.spread data)) (SqlUtil.spread data) =
              Return []).
  { destruct (transform_loop_without_fields rt (keys (SqlUtil.spread data))
                (SqlUtil.spread data)) as (r' & -> & Hlook).
    f_equal. apply obj_without_lookups. intros k. rewrite Hlook.
    destruct (existsb (String.eqb k) (keys (SqlUtil.spread data))) eqn:E;
      [reflexivity|].
    apply obj_lookup_absent. intros Hin.
    assert (existsb (String.eqb k) (keys (SqlUtil.spread data)) = true)
      by (apply existsb_exists; exists k; split;
          [assumption|apply String.eqb_refl]).
    congruence. }
  split; exact H.
Qed.

(** ** The projector without date fields *)

(** X12: when no key of the input is a date field, the projector returns
    exactly the entries of the input whose key is allowed and whose value
    is neither null nor undefined, in the order of the input; so every key
    of the result is allowed and no value of the result is null or
    undefined. *)
Theorem transformData_projects_without_date_fields :
  forall (rt : Runtime) (dates allowed : list string) (o : obj),
    NoDup (keys o) ->
    (forall k, In k (keys o) -> includes dates k = false) ->
    SqlUtil.transformData rt (VObject o)
      (Some {| SqlUtil.dateFields := Some dates;
               SqlUtil.allFields := Some allowed |}) =
    Return (projection allowed o) /\
    (forall k v,
        In (k, v) (projection allowed o) <->
        In (k, v) o /\ In k allowed /\ v <> VNull /\ v <> VUndefined).
Proof.
  intros rt dates allowed o Hnd Hdates. split.
  - now apply transformData_without_dates.
  - intros k v. unfold projection. rewrite filter_In. cbn [fst snd].
    rewrite andb_true_iff, includes_In, negb_true_iff.
    split; intros (Hin & Ha & Hv); (split; [assumption|]);
      (split; [assumption|]).
    + destruct v; try discriminate Hv; split; discriminate.
    + destruct Hv as [Hnull Hundef]. destruct v; try reflexivity;
        [now destruct Hundef|now destruct Hnull].
Qed.

Lemma transformData_projects_without_date_fields_witness :
  SqlUtil.transformData plain_runtime
    (VObject [("name", VString "n"); ("secret", VNumber (Fin 1));
              ("note", VNull)])
    (Some {| SqlUtil.dateFields := Some ["createdAt"];
             SqlUtil.allFields := Some ["name"; "note"] |}) =
  Return [("name", VString "n")].
Proof.
  refine (proj1 (transformData_projects_without_date_fields plain_runtime
                   ["createdAt"] ["name"; "note"]
                   [("name", VString "n"); ("secret", VNumber (Fin 1));
                    ("note", VNull)] _ _)).
  - repeat constructor; simpl; intuition discriminate.
  - intros k Hin. simpl in Hin.
    destruct Hin as [<-|[<-|[<-|[]]]]; reflexivity.
Defined.

(** ** The validator *)

Lemma forallb_includes (allowed ks : list string) :
  forallb (fun k => includes allowed k) ks = true <->
  forall k, In k ks -> In k allowed.
Proof.
  rewrite forallb_forall. split; intros H k Hin.
  - now apply includes_In, H.
  - now apply includes_In, H.
Qed.

(** X13: on an object, the validator answers true exactly when every key
    is an allowed field or one of AND, OR and NOT, so it accepts the empty
    object; it raises a TypeError when the options are missing or when the
    data is not an object; and it rejects an array unless [length] is an
    allowed field. *)
Theorem checkConditions_decides :
  forall (allowed : list string),
    (forall o,
        exists b,
          SqlUtil.checkConditions (VObject o) (Some (allowing allowed)) =
          Return b /\
          (b = true <->
           forall k, In k (keys o) -> In k allowed \/ In k connectors)) /\
    SqlUtil.checkConditions (VObject []) (Some (allowing allowed)) =
    Return true /\
    (forall data, SqlUtil.checkConditions data None = Throw TypeError) /\
    (forall options s n b,
        SqlUtil.checkConditions VNull (Some options) = Throw TypeError /\
        SqlUtil.checkConditions VUndefined (Some options) = Throw TypeError /\
        SqlUtil.checkConditions (VString s) (Some options) =
        Throw TypeError /\
        SqlUtil.checkConditions (VNumber n) (Some options) =
        Throw TypeError /\
        SqlUtil.checkConditions (VBool b) (Some options) = Throw TypeError) /\
    (forall elems,
        ~ In "length" allowed ->
        SqlUtil.checkConditions (VArray elems) (Some (allowing allowed)) =
        Return false).
Proof.
  intros allowed. split; [|split; [|split; [|split]]].
  - intros o. eexists. split; [reflexivity|].
    cbn [SqlUtil.allFields allowing SqlUtil.or_empty].
    rewrite forallb_includes. unfold connectors.
    split; intros H k Hin.
    + apply in_app_or. now apply H.
    + apply in_or_app. now apply H.
  - reflexivity.
  - reflexivity.
  - intros. repeat split.
  - intros elems Hlen. unfold SqlUtil.checkConditions.
    cbn [SqlUtil.ownKeys bind]. f_equal.
    apply not_true_is_false. intros H.
    rewrite forallb_includes in H.
    assert (Hin : In "length" (keys (indexed_from 0 elems) ++ ["length"]))
      by (apply in_or_app; right; now left).
    apply H in Hin as H'. clear H. rename H' into H.
    cbn [SqlUtil.allFields allowing SqlUtil.or_empty] in H.
    apply in_app_or in H as [H|H]; [now apply Hlen|].
    simpl in H. intuition discriminate.
Qed.

Lemma checkConditions_decides_witness :
  SqlUtil.checkConditions (VArray [VString "a"]) (Some (allowing ["name"])) =
  Return false.
Proof.
  refine (proj2 (proj2 (proj2 (proj2 (checkConditions_decides ["name"]))))
            [VString "a"] _).
  simpl. intuition discriminate.
Defined.

Lemma checkConditions_object (allowed : list string) (o : obj) :
  SqlUtil.checkConditions (VObject o) (Some (allowing allowed)) =
  Return true <->
  forall k, In k (keys o) -> In k allowed \/ In k connectors.
Proof.
  unfold SqlUtil.checkConditions.
  cbn [SqlUtil.ownKeys bind SqlUtil.allFields allowing SqlUtil.or_empty].
  split.
  - intros [= H]. rewrite forallb_includes in H.
    intros k Hin. apply in_app_or. now apply H.
  - intros H. f_equal. apply forallb_includes.
    intros k Hin. apply in_or_app. now apply H.
Qed.

(** X14: the predicate built from a condition map that passes the
    validator passes the validator too: its keys are allowed fields of the
    map and, for the address fields, the connector OR. *)
Theorem validated_conditions_give_validated_predicate :
  forall rangeField ListField addressField logicAndListField searchField
         (allowed : list string) (conditions where_ : obj),
    SqlUtil.checkConditions (VObject conditions) (Some (allowing allowed)) =
    Return true ->
    SqlUtil.handleConditions rangeField ListField addressField
      logicAndListField searchField conditions = Return where_ ->
    SqlUtil.checkConditions (VObject where_) (Some (allowing allowed)) =
    Return true.
Proof.
  intros rangeField ListField addressField logicAndListField searchField
    allowed conditions where_ Hvalid Hrun.
  rewrite checkConditions_object in Hvalid |- *.
  intros k Hin.
  destruct (fold_handle_entry_keys rangeField ListField addressField
              logicAndListField searchField conditions [] where_ Hrun)
    as [_ Hkeys].
  apply Hkeys in Hin as [[]|(key & Hkey & Hw)].
  unfold written_key in Hw.
  destruct (includes addressField key).
  - subst k. right. unfold connectors. simpl. intuition.
  - subst k. now apply Hvalid.
Qed.

Lemma validated_conditions_give_validated_predicate_witness :
  SqlUtil.checkConditions
    (VObject [("OR", VArray [country_clause "location" (VString "US")]);
              ("name", VObject [("equals", VString "x")])])
    (Some (allowing ["name"; "location"])) = Return true.
Proof.
  exact (validated_conditions_give_validated_predicate [] [] ["location"]
           [] [] ["name"; "location"]
           [("location", VArray [VObject [("country", VString "US")]]);
            ("name", VString "x")] _ eq_refl eq_refl).
Defined.

(** X15: when no key of the input is a date field, what the projector
    returns for an allowlist passes the validator for the same
    allowlist. *)
Theorem projection_passes_validator :
  forall (rt : Runtime) (dates allowed : list string) (o : obj),
    NoDup (keys o) ->
    (forall k, In k (keys o) -> includes dates k = false) ->
    exists result,
      SqlUtil.transformData rt (VObject o)
        (Some {| SqlUtil.dateFields := Some dates;
                 SqlUtil.allFields := Some allowed |}) = Return result /\
      SqlUtil.checkConditions (VObject result) (Some (allowing allowed)) =
      Return true.
Proof.
  intros rt dates allowed o Hnd Hdates.
  exists (projection allowed o). split.
  - now apply transformData_without_dates.
  - apply checkConditions_object. intros k Hin. left.
    apply in_map_iff in Hin as ([k' v] & Hk & Hin).
    simpl in Hk. subst k'. unfold projection in Hin.
    apply filter_In in Hin as [_ Hin]. cbn [fst snd] in Hin.
    apply andb_prop in Hin as [Hin _]. now apply includes_In.
Qed.

Lemma projection_passes_validator_witness :
  exists result,
    SqlUtil.transformData plain_runtime
      (VObject [("name", VString "n"); ("secret", VNumber (Fin 1))])
      (Some {| SqlUtil.dateFields := Some [];
               SqlUtil.allFields := Some ["name"] |}) = Return result /\
    SqlUtil.checkConditions (VObject result) (Some (allowing ["name"])) =
    Return true.
Proof.
  refine (projection_passes_validator plain_runtime [] ["name"]
            [("name", VString "n"); ("secret", VNumber (Fin 1))] _ _).
  - repeat constructor; simpl; intuition discriminate.
  - intros k _. reflexivity.
Defined.

(** ** The VALUES clause *)








Example generateValuesClause_three :
  SqlUtil.generateValuesClause (Fin 3) = SqlUtil.Clause "VALUES($1, $2, $3)".
Proof. reflexivity. Qed.

(** ** The outcomes of the four mutations *)

Section MutationResults.
Context {S : Type} (prisma : Prisma S) (collection : Collection S).

(** X19: when the store call succeeds and the release succeeds,
    [createData] returns [{success: true, data: <the created record>}] and
    the three other operations return [{success: true}]; the store is left
    as the release left it. *)
Theorem mutations_success_record (a b : jsval) (w : world S)
  (v u : jsval) (s1 s2 : S) :
  disconnect prisma s1 = (Return u, s2) ->
  (create collection (VObject [("data", a)]) (store w) = (Return v, s1) ->
   fst (SqlUtil.createData prisma collection a w) =
   Return (VObject [("success", VBool true); ("data", v)]) /\
   store (snd (SqlUtil.createData prisma collection a w)) = s2) /\
  (createMany collection (VObject [("data", a)]) (store w) = (Return v, s1) ->
   fst (SqlUtil.batchCreateData prisma collection a w) =
   Return (VObject [("success", VBool true)]) /\
   store (snd (SqlUtil.batchCreateData prisma collection a w)) = s2) /\
  (delete collection (VObject [("where", VObject [("id", a)])]) (store w) =
   (Return v, s1) ->
   fst (SqlUtil.deleteData prisma collection a w) =
   Return (VObject [("success", VBool true)]) /\
   store (snd (SqlUtil.deleteData prisma collection a w)) = s2) /\
  (updateMany collection
     (VObject [("where", VObject [("id", b)]); ("data", a)]) (store w) =
   (Return v, s1) ->
   fst (SqlUtil.updateFields prisma collection a b w) =
   Return (VObject [("success", VBool true)]) /\
   store (snd (SqlUtil.updateFields prisma collection a b w)) = s2).
Proof.
  intros Hd.
  rewrite createData_guarded, batchCreateData_guarded, deleteData_guarded,
    updateFields_guarded.
  repeat match goal with |- _ /\ _ => split end;
    intros Hf; rewrite guarded_run, Hf, Hd; split; reflexivity.
Qed.

(** X20: an error of the release is raised by the operation, whether the
    store call succeeded or failed; and an operation raises no other
    error: whatever it raises, the release raised. *)
Theorem mutations_raise_release_errors (a b : jsval) (w : world S)
  (e : exn) :
  ((forall s, exists s', disconnect prisma s = (Throw e, s')) ->
   fst (SqlUtil.createData prisma collection a w) = Throw e /\
   fst (SqlUtil.batchCreateData prisma collection a w) = Throw e /\
   fst (SqlUtil.deleteData prisma collection a w) = Throw e /\
   fst (SqlUtil.updateFields prisma collection a b w) = Throw e) /\
  (fst (SqlUtil.createData prisma collection a w) = Throw e \/
   fst (SqlUtil.batchCreateData prisma collection a w) = Throw e \/
   fst (SqlUtil.deleteData prisma collection a w) = Throw e \/
   fst (SqlUtil.updateFields prisma collection a b w) = Throw e ->
   exists s s', disconnect prisma s = (Throw e, s')).
Proof.
  rewrite createData_guarded, batchCreateData_guarded, deleteData_guarded,
    updateFields_guarded, !guarded_run.
  split.
  - intros Hd.
    repeat split;
      match goal with
      | |- context [let (_, _) := ?f (store w) in _] =>
          destruct (f (store w)) as [r s1]
      end;
      destruct (Hd s1) as [s2 ->]; reflexivity.
  - intros H.
    repeat match type of H with
           | _ \/ _ => destruct H as [H|H]
           end;
      match type of H with
      | context [let (_, _) := ?f (store w) in _] =>
          destruct (f (store w)) as [r s1]
      end;
      destruct (disconnect prisma s1) as [[u|e'] s2] eqn:Hd;
      cbn [fst] in H;
      try (destruct r; discriminate H);
      injection H as ->; now exists s1, s2.
Qed.

End MutationResults.

Lemma mutations_success_record_witness :
  fst (SqlUtil.createData quiet_prisma (fixed_collection VNull 0)
         (VObject [("name", VString "n")]) fresh_world) =
  Return (VObject [("success", VBool true);
                   ("data", VObject [("name", VString "n")])]) /\
  fst (SqlUtil.updateFields quiet_prisma (fixed_collection VNull 0)
         (VObject [("name", VString "n")]) (VNumber (Fin 7)) fresh_world) =
  Return (VObject [("success", VBool true)]).
Proof.
  pose proof (mutations_success_record quiet_prisma (fixed_collection VNull 0)
                (VObject [("name", VString "n")]) (VNumber (Fin 7))
                fresh_world (VObject [("name", VString "n")]) VUndefined
                tt tt eq_refl) as (Hc & _ & _ & _).
  pose proof (mutations_success_record quiet_prisma (fixed_collection VNull 0)
                (VObject [("name", VString "n")]) (VNumber (Fin 7))
                fresh_world VUndefined VUndefined
                tt tt eq_refl) as (_ & _ & _ & Hu).
  split; [apply Hc | apply Hu]; reflexivity.
Defined.

Lemma mutations_raise_release_errors_witness :
  fst (SqlUtil.createData (broken_prisma (VString "gone"))
         (fixed_collection VNull 0) (VObject [("name", VString "n")])
         fresh_world) = Throw (Rejected (VString "gone")) /\
  fst (SqlUtil.deleteData (broken_prisma (VString "gone"))
         (failing_collection (VString "down")) (VNumber (Fin 7))
         fresh_world) = Throw (Rejected (VString "gone")) /\
  exists s s',
    disconnect (broken_prisma (VString "gone")) s =
    (Throw (Rejected (VString "gone")), s').
Proof.
  split; [|split].
  - refine (proj1 (proj1 (mutations_raise_release_errors
                            (broken_prisma (VString "gone"))
                            (fixed_collection VNull 0)
                            (VObject [("name", VString "n")]) VNull
                            fresh_world (Rejected (VString "gone"))) _)).
    intros s. now exists s.
  - refine (proj1 (proj2 (proj2 (proj1 (mutations_raise_release_errors
                            (broken_prisma (VString "gone"))
                            (failing_collection (VString "down"))
                            (VNumber (Fin 7)) VNull
                            fresh_world (Rejected (VString "gone"))) _)))).
    intros s. now exists s.
  - refine (proj2 (mutations_raise_release_errors
                     (broken_prisma (VString "gone"))
                     (failing_collection (VString "down"))
                     (VNumber (Fin 7)) VNull
                     fresh_world (Rejected (VString "gone"))) _).
    left. reflexivity.
Defined.

Lemma mutations_failure_record_witness :
  fst (SqlUtil.createData quiet_prisma (failing_collection (VString "down"))
         (VObject [("name", VString "n")]) fresh_world) =
  Return (VObject [("success", VBool false);
                   ("error", VString "Error creating data")]) /\
  fst (SqlUtil.batchCreateData quiet_prisma
         (failing_collection (VString "down"))
         (VObject [("name", VString "n")]) fresh_world) =
  Return (VObject [("success", VBool false);
                   ("error", VString "Error creating data")]) /\
  fst (SqlUtil.deleteData quiet_prisma (failing_collection (VString "down"))
         (VObject [("name", VString "n")]) fresh_world) =
  Return (VObject [("success", VBool false);
                   ("error", VString "Error deleting data")]).
Proof.
  pose proof (mutations_failure_record quiet_prisma
                (failing_collection (VString "down"))
                (VObject [("name", VString "n")]) fresh_world
                (Rejected (VString "down")) tt tt VUndefined eq_refl)
    as (Hc & Hb & Hd).
  split; [|split]; [apply Hc | apply Hb | apply Hd]; reflexivity.
Defined.

(** ** The address fields in the simpler version *)

Lemma get_prop_own (p : jsval) (field : string) :
  is_nullish p = false ->
  (field =? "length")%string = false ->
  get_prop p field = Return (obj_get (own_entries p) field).
Proof.
  intros Hp Hf. destruct p; try discriminate Hp; cbn [get_prop];
    rewrite ?Hf; reflexivity.
Qed.

Lemma push_field_defined (key field : string) (p : jsval)
  (acc : list jsval) :
  is_nullish p = false ->
  (field =? "length")%string = false ->
  Part000.push_field key field p acc = Return (acc ++ path_clause key field p).
Proof.
  intros Hp Hf. unfold Part000.push_field, path_clause.
  rewrite (get_prop_own p field Hp Hf). cbn [bind].
  destruct (truthy (obj_get (own_entries p) field)).
  - reflexivity.
  - now rewrite app_nil_r.
Qed.

Lemma push_fields_defined (key : string) (p : jsval) (acc : list jsval) :
  is_nullish p = false ->
  (f1 <- Part000.push_field key "city" p acc ;;
   f2 <- Part000.push_field key "country" p f1 ;;
   Part000.push_field key "province" p f2) =
  Return (acc ++ path_clauses key p).
Proof.
  intros Hp. rewrite !push_field_defined by (assumption || reflexivity).
  cbn [bind]. rewrite !push_field_defined by (assumption || reflexivity).
  cbn [bind]. rewrite !push_field_defined by (assumption || reflexivity).
  unfold path_clauses. now rewrite <- !app_assoc.
Qed.

Section SimplerAddressLoop.
Context (rt : Runtime) (key : string) (value : jsval) (elems : list jsval).
Hypothesis value_length :
  get_prop value "length" =
  Return (VNumber (Fin (Z.of_nat (List.length elems)))).
Hypothesis value_index :
  forall i, get_prop value (index_key i) = Return (nth i elems VUndefined).

(** The loop over a value that has the length and the elements of a list,
    from the index [length done] on. *)
Lemma address_loop_elements (todo done : list jsval) (acc : list jsval)
  (fuel : nat) :
  elems = done ++ todo ->
  (List.length todo < fuel)%nat ->
  Part000.address_loop rt fuel key value (List.length done) acc =
  if forallb (fun p => negb (is_nullish p)) todo
  then Return (acc ++ flat_map (path_clauses key) todo)
  else Throw TypeError.
Proof.
  revert done acc fuel.
  induction todo as [|p todo IH]; intros done acc fuel Helems Hfuel;
    (destruct fuel as [|fuel]; [simpl in Hfuel; lia|]);
    cbn [Part000.address_loop]; rewrite value_length;
    cbn [bind ToNumber num_ltb]; rewrite Helems.
  - rewrite app_nil_r, Z.ltb_irrefl. cbn. now rewrite app_nil_r.
  - replace (Z.of_nat (List.length done) <?
             Z.of_nat (List.length (done ++ p :: todo))) with true
      by (symmetry; apply Z.ltb_lt; rewrite length_app; simpl; lia).
    rewrite value_index, Helems, nth_middle. cbn [bind forallb].
    destruct (is_nullish p) eqn:Hp.
    + now rewrite push_field_nullish.
    + pose proof (push_fields_defined key p acc Hp) as Hpush.
      destruct (Part000.push_field key "city" p acc) as [f1|];
        cbn [bind] in Hpush |- *; [|discriminate Hpush].
      destruct (Part000.push_field key "country" p f1) as [f2|];
        cbn [bind] in Hpush |- *; [|discriminate Hpush].
      rewrite Hpush. cbn [bind negb andb].
      replace (S (List.length done)) with (List.length (done ++ [p]))
        by (rewrite length_app; simpl; lia).
      rewrite IH;
        [|now rewrite Helems, <- app_assoc|simpl in Hfuel; lia].
      cbn [flat_map]. now rewrite <- app_assoc.
Qed.

End SimplerAddressLoop.

Lemma length_chars (s : string) : List.length (chars s) = String.length s.
Proof. induction s; simpl; [|rewrite IHs]; reflexivity. Qed.

Lemma get_prop_string_index (s : string) (i : nat) :
  get_prop (VString s) (index_key i) = Return (nth i (chars s) VUndefined).
Proof.
  unfold get_prop. rewrite index_key_not_length. cbn [own_entries].
  unfold obj_get.
  pose proof (obj_lookup_indexed (chars s) 0 i) as H. cbn [Nat.add] in H.
  rewrite H. clear H.
  generalize (chars s) as l. intros l.
  revert i. induction l as [|v l IH]; intros [|i]; simpl; try reflexivity.
  apply IH.
Qed.

Lemma chars_give_no_clause (key : string) (s : string) :
  forallb (fun p => negb (is_nullish p)) (chars s) = true /\
  flat_map (path_clauses key) (chars s) = [].
Proof.
  induction s as [|c s [IH1 IH2]]; [now split|].
  cbn [chars forallb flat_map]. now rewrite IH1, IH2.
Qed.

(** X21: in the simpler version, an address field whose value is a list
    of nested objects writes under [OR] one path clause for each truthy
    [city], [country] and [province] of each object, in this order, and
    raises a [TypeError] when an element is null or undefined.  A value
    that is not a list is not translated: null and undefined raise a
    [TypeError], and a number, a boolean, a date, a string and an object
    without a [length] give an empty [OR]. *)
Theorem simpler_address_field_translation :
  forall (rt : Runtime) (rangeField ListField addressField : list string)
         (where_ : obj) (key : string),
    includes addressField key = true ->
    (forall nested,
        Part000.handle_entry rt rangeField ListField addressField where_
          (key, VArray nested) =
        if forallb (fun p => negb (is_nullish p)) nested
        then Return
               (obj_set where_ "OR"
                  (VArray (flat_map (path_clauses key) nested)))
        else Throw TypeError) /\
    (forall value,
        is_nullish value = true ->
        Part000.handle_entry rt rangeField ListField addressField where_
          (key, value) = Throw TypeError) /\
    (forall value,
        match value with
        | VNumber _ | VBool _ | VDate _ | VString _ => True
        | VObject o => obj_lookup o "length" = None
        | _ => False
        end ->
        Part000.handle_entry rt rangeField ListField addressField where_
          (key, value) = Return (obj_set where_ "OR" (VArray []))).
Proof.
  intros rt rangeField ListField addressField where_ key Hkey.
  unfold Part000.handle_entry. rewrite Hkey.
  split; [|split].
  - intros nested.
    pose proof (address_loop_elements rt key (VArray nested) nested
                  (get_prop_array_length nested)
                  (get_prop_array_index nested) nested [] []
                  (S (List.length (own_entries (VArray nested))))
                  eq_refl) as Hloop.
    cbn [List.length app] in Hloop. rewrite Hloop
      by (cbn [own_entries]; rewrite length_indexed_from; lia).
    now destruct (forallb _ nested).
  - intros value Hnull. now destruct value.
  - intros value Hvalue.
    destruct value as [| |b|n|s|l|o|t]; try contradiction;
      try reflexivity.
    + pose proof (address_loop_elements rt key (VString s) (chars s)
                    (f_equal (fun n => Return (VNumber (Fin (Z.of_nat n))))
                       (eq_sym (length_chars s)))
                    (get_prop_string_index s) (chars s) [] []
                    (S (List.length (own_entries (VString s))))
                    eq_refl) as Hloop.
      cbn [List.length app] in Hloop. rewrite Hloop
        by (cbn [own_entries]; rewrite length_indexed_from; lia).
      destruct (chars_give_no_clause key s) as [-> ->]. reflexivity.
    + cbn [own_entries Part000.address_loop get_prop]. unfold obj_get.
      rewrite Hvalue. reflexivity.
Qed.

Lemma simpler_address_field_translation_witness :
  Part000.handle_entry plain_runtime [] [] ["location"] []
    ("location",
     VArray [VObject [("country", VString "FR"); ("city", VString "Paris")];
             VObject [("province", VString "ON")]]) =
  Return
    [("OR",
      VArray
        [VObject [("location",
                   VObject [("path", VArray [VString "city"]);
                            ("equals", VString "Paris")])];
         VObject [("location",
                   VObject [("path", VArray [VString "country"]);
                            ("equals", VString "FR")])];
         VObject [("location",
                   VObject [("path", VArray [VString "province"]);
                            ("equals", VString "ON")])]])] /\
  Part000.handle_entry plain_runtime [] [] ["location"] []
    ("location", VNull) = Throw TypeError /\
  Part000.handle_entry plain_runtime [] [] ["location"] []
    ("location", VObject [("country", VString "FR")]) =
  Return [("OR", VArray [])].
Proof.
  pose proof (simpler_address_field_translation plain_runtime [] []
                ["location"] [] "location" eq_refl) as (Hl & Hn & Ho).
  split; [|split].
  - exact (Hl [VObject [("country", VString "FR"); ("city", VString "Paris")];
               VObject [("province", VString "ON")]]).
  - exact (Hn VNull eq_refl).
  - exact (Ho (VObject [("country", VString "FR")]) eq_refl).
Defined.

(** ** The two versions of the paginated fetch *)


